(** * DeepBedMap: the Antarctic-wide tiler and predictor

    A shallow embedding of section 4.1 of [deepbedmap.py] ("The whole of
    Antarctica tiler and predictor"): the [Shape] value type, the list of
    tile origins [steps], the per-tile crop windows [y0], [y1], [x0], [x1],
    the four crops handed to the generator model, and the write of the
    trimmed prediction into the mosaic [Y_hat].

    Python integers are unbounded, so they are [Z]; [//] by the positive
    constant 4 is [Z.div].  Arrays are dense grids with an explicit shape;
    only the two spatial axes are modelled, because every index expression
    of the tiler takes the batch and channel axes whole. *)

From Stdlib Require Import ZArith List Bool Lia Finite Sorted Permutation.
Import ListNotations.
Open Scope Z_scope.

(** ** Exceptions *)

(** [ValueError] is what [range], [np.full] and a failed broadcast raise;
    [OtherError] stands for whatever else the generator may raise, such as
    an exhausted device memory. *)
Inductive exn : Type :=
| ValueError
| OtherError.

Inductive result (A : Type) : Type :=
| Ok (a : A)
| Raise (e : exn).

Arguments Ok {A} a.
Arguments Raise {A} e.

Definition bind {A B : Type} (m : result A) (k : A -> result B) : result B :=
  match m with
  | Ok a => k a
  | Raise e => Raise e
  end.

Notation "v <- m ;; k" := (bind m (fun v => k))
  (at level 61, m at next level, right associativity).

(** ** [Shape] : the frozen dataclass of lines 667-670 *)

Record Shape : Type := mkShape { y : Z; x : Z }.

(** The four constants bound at lines 677-680. *)
Record config : Type := mkConfig {
  final_shape : Shape;
  ary_shape : Shape;
  stride : Shape;
  xtrapad : Shape
}.

Definition reference_config : config :=
  {| final_shape := mkShape 18000 22000;
     ary_shape := mkShape 1000 1000;
     stride := mkShape 1000 1000;
     xtrapad := mkShape 18 18 |}.

(** ** Python's [range] and [slice] *)

(** Number of elements of [range(start, stop, step)], as CPython computes it
    for a non-zero step. *)
Definition range_len (start stop step : Z) : Z :=
  if 0 <? step then
    if start <? stop then (stop - start - 1) / step + 1 else 0
  else
    if stop <? start then (start - stop - 1) / (- step) + 1 else 0.

(** [range(start, stop, step)]: a zero step raises [ValueError]. *)
Definition py_range (start stop step : Z) : result (list Z) :=
  if step =? 0 then Raise ValueError
  else Ok (map (fun i => start + Z.of_nat i * step)
               (seq 0 (Z.to_nat (range_len start stop step)))).

(** [slice(start, stop).indices(len)] for the default step 1: a negative
    bound counts from the end, and both bounds are clipped to [0, len]. *)
Definition adjust_index (i len : Z) : Z :=
  if i <? 0 then Z.max 0 (i + len) else Z.min i len.

Definition slice_indices (s : Z * Z) (len : Z) : Z * Z :=
  (adjust_index (fst s) len, adjust_index (snd s) len).

Definition in_range (r : Z * Z) (i : Z) : bool :=
  (fst r <=? i) && (i <? snd r).

(** ** The tile scheduler, lines 686-689 *)

(** The inner [for x_step in range(0, final_shape.x, stride.x)] loop body
    appends one [Shape] per column origin. *)
Definition append_row (y_step : Z) (xs : list Z) (steps : list Shape) : list Shape :=
  steps ++ map (fun x_step => mkShape y_step x_step) xs.

(** The outer loop over the row origins.  The inner [range] is evaluated
    anew in every iteration, so a zero column stride raises only when there
    is a row to iterate over.  The list built so far is returned together
    with the exception, if any. *)
Fixpoint schedule_rows (c : config) (ys : list Z) (steps : list Shape)
  : list Shape * option exn :=
  match ys with
  | [] => (steps, None)
  | y_step :: ys' =>
      match py_range 0 (x (final_shape c)) (x (stride c)) with
      | Raise e => (steps, Some e)
      | Ok xs => schedule_rows c ys' (append_row y_step xs steps)
      end
  end.

Definition schedule (c : config) : list Shape * option exn :=
  match py_range 0 (y (final_shape c)) (y (stride c)) with
  | Raise e => ([], Some e)
  | Ok ys => schedule_rows c ys []
  end.

(** ** The window mapper, lines 692-697 *)

Definition y0 (c : config) (step : Shape) : Z :=
  Z.max 0 (y step / 4 - y (xtrapad c) - 1).

Definition y1 (c : config) (step : Shape) : Z :=
  Z.min (y (final_shape c) / 4)
        ((y step + y (ary_shape c)) / 4 + y (xtrapad c) + 1).

Definition x0 (c : config) (step : Shape) : Z :=
  Z.max 0 (x step / 4 - x (xtrapad c) - 1).

Definition x1 (c : config) (step : Shape) : Z :=
  Z.min (x (final_shape c) / 4)
        ((x step + x (ary_shape c)) / 4 + x (xtrapad c) + 1).

(** A pair of slices [ys, xs], each a raw (start, stop) pair as written in
    the subscript, before Python adjusts it to the length of the axis. *)
Record window : Type := mkWindow { ys : Z * Z; xs : Z * Z }.

(** Subscripts of the crops of BEDMAP2 (X), REMA (W1), MEaSUREs (W2) and
    Accumulation (W3), lines 700-708. *)
Definition X_window (c : config) (step : Shape) : window :=
  mkWindow (y0 c step, y1 c step) (x0 c step, x1 c step).

Definition W1_window (c : config) (step : Shape) : window :=
  mkWindow (y0 c step * 10, y1 c step * 10) (x0 c step * 10, x1 c step * 10).

Definition W2_window (c : config) (step : Shape) : window :=
  mkWindow (y0 c step * 2, y1 c step * 2) (x0 c step * 2, x1 c step * 2).

Definition W3_window (c : config) (step : Shape) : window :=
  mkWindow (y0 c step, y1 c step) (x0 c step, x1 c step).

(** Subscript of the write into [Y_hat], lines 717-718. *)
Definition y_slice (c : config) (step : Shape) : Z * Z :=
  ((y0 c step + y (xtrapad c) + 1) * 4, (y1 c step - y (xtrapad c) - 1) * 4).

Definition x_slice (c : config) (step : Shape) : Z * Z :=
  ((x0 c step + x (xtrapad c) + 1) * 4, (x1 c step - x (xtrapad c) - 1) * 4).

(** Subscript of the interior of the prediction, line 721:
    [xtrapad.y * 4 : -xtrapad.y * 4, xtrapad.x * 4 : -xtrapad.x * 4]. *)
Definition trim_window (c : config) : window :=
  mkWindow (y (xtrapad c) * 4, - y (xtrapad c) * 4)
           (x (xtrapad c) * 4, - x (xtrapad c) * 4).

(** ** Arrays *)

(** A float32 cell: either the no-data value [np.nan] or a finite number.
    The tiler never does arithmetic on cells, so a finite number is kept as
    an opaque integer code. *)
Inductive float32 : Type :=
| NaN
| Fin (v : Z).

Definition is_nan (v : float32) : bool :=
  match v with
  | NaN => true
  | Fin _ => false
  end.

(** The two spatial axes of a numpy array: its shape and its cells.  [px]
    is only meaningful inside the shape. *)
Record ndarray : Type := mkArray {
  rows : Z;
  cols : Z;
  px : Z -> Z -> float32
}.

(** [np.full(shape=(1, shape.y, shape.x), fill_value=v)]: a negative
    dimension raises [ValueError]. *)
Definition np_full (shape : Shape) (v : float32) : result ndarray :=
  if (y shape <? 0) || (x shape <? 0) then Raise ValueError
  else Ok (mkArray (y shape) (x shape) (fun _ _ => v)).

Definition slice_len (r : Z * Z) : Z := Z.max 0 (snd r - fst r).

(** [a[..., ys, xs]] for two slices: never raises, out-of-range bounds are
    clipped by [slice_indices]. *)
Definition getitem (a : ndarray) (w : window) : ndarray :=
  let ry := slice_indices (ys w) (rows a) in
  let rx := slice_indices (xs w) (cols a) in
  mkArray (slice_len ry) (slice_len rx)
          (fun i j => px a (fst ry + i) (fst rx + j)).

(** numpy broadcasts the assigned value to the shape of the target: along
    each axis the lengths agree or the value has length 1. *)
Definition broadcasts (n target : Z) : bool :=
  (n =? target) || (n =? 1).

Definition bcast_index (n i : Z) : Z :=
  if n =? 1 then 0 else i.

(** [a[:, ys, xs] = v]: raises [ValueError] when [v] cannot be broadcast to
    the target, and then leaves [a] as it was. *)
Definition setitem (a : ndarray) (w : window) (v : ndarray) : result ndarray :=
  let ry := slice_indices (ys w) (rows a) in
  let rx := slice_indices (xs w) (cols a) in
  if broadcasts (rows v) (slice_len ry) && broadcasts (cols v) (slice_len rx)
  then Ok (mkArray (rows a) (cols a)
             (fun r c =>
                if in_range ry r && in_range rx c
                then px v (bcast_index (rows v) (r - fst ry))
                          (bcast_index (cols v) (c - fst rx))
                else px a r c))
  else Raise ValueError.

(** ** The tiling loop, lines 691-727, and the export, lines 736-743 *)

(** What the tiling cell, lines 674-727, ends with: either the loop is
    over and line 736 is reached with the float32 mosaic [Y_hat], or an
    exception escapes; [inferred] lists the tiles for which [model.forward]
    had been called by then, oldest first. *)
Inductive outcome : Type :=
| Saved (Y_hat : ndarray)
| Failed (e : exn) (inferred : list Shape).

Section Tiler.

(** The four input rasters and the trained generator are produced outside
    the tiler.  The generator may raise. *)
Variables X_tile W1_tile W2_tile W3_tile : ndarray.
Variable forward : ndarray -> ndarray -> ndarray -> ndarray -> result ndarray.

Definition Y_pred (c : config) (step : Shape) : result ndarray :=
  forward (getitem X_tile (X_window c step))
          (getitem W1_tile (W1_window c step))
          (getitem W2_tile (W2_window c step))
          (getitem W3_tile (W3_window c step)).

Definition Y_hat_window (c : config) (step : Shape) : window :=
  mkWindow (y_slice c step) (x_slice c step).

(** One iteration of [for step in steps]. *)
Definition tile (c : config) (Y_hat : ndarray) (step : Shape) : result ndarray :=
  pred <- Y_pred c step ;;
  setitem Y_hat (Y_hat_window c step) (getitem pred (trim_window c)).

Fixpoint tile_loop (c : config) (steps : list Shape) (Y_hat : ndarray)
         (inferred : list Shape) : outcome :=
  match steps with
  | [] => Saved Y_hat
  | step :: steps' =>
      match tile c Y_hat step with
      | Raise e => Failed e (inferred ++ [step])
      | Ok Y_hat' => tile_loop c steps' Y_hat' (inferred ++ [step])
      end
  end.

(** The whole cell: allocate the mosaic, build [steps] and run the loop.
    [Saved Y_hat] is the float32 mosaic as it stands when the export of
    lines 736-743 is reached; the cast to int16 that the export applies to
    it is part of [script] below. *)
Definition run (c : config) : outcome :=
  match np_full (final_shape c) NaN with
  | Raise e => Failed e []
  | Ok Y_hat =>
      match schedule c with
      | (_, Some e) => Failed e []
      | (steps, None) => tile_loop c steps Y_hat []
      end
  end.

End Tiler.

(** ** The export, lines 734-743 *)

(** An int16 raster, as [save_array_to_grid] receives it. *)
Record int16_array : Type := mkInt16Array {
  rows16 : Z;
  cols16 : Z;
  px16 : Z -> Z -> Z
}.

(** What the script ends with: either [save_array_to_grid] is called with
    an int16 raster, or an exception has escaped from the tiling cell. *)
Inductive script_outcome : Type :=
| Exported (array : int16_array)
| Aborted (e : exn) (inferred : list Shape).

Section Casting.

Variables X_tile W1_tile W2_tile W3_tile : ndarray.
Variable forward : ndarray -> ndarray -> ndarray -> ndarray -> result ndarray.

(** [astype(dtype=np.int16)] casts cell by cell and keeps the shape.  An
    int16 cannot hold NaN, and numpy leaves to the platform what NaN and
    a number outside the range of int16 become; finite cells are opaque
    here.  So the cast of one cell is a parameter. *)
Variable cast : float32 -> Z.

Definition astype (a : ndarray) : int16_array :=
  mkInt16Array (rows a) (cols a) (fun r k => cast (px a r k)).

(** The tiling cell followed by the export cell.  The first statement after
    the loop is the call of [save_array_to_grid] on
    [Y_hat.astype(dtype=np.int16)]. *)
Definition script (c : config) : script_outcome :=
  match run X_tile W1_tile W2_tile W3_tile forward c with
  | Saved Y_hat => Exported (astype Y_hat)
  | Failed e inferred => Aborted e inferred
  end.

End Casting.

(** ** The specification's window formula

    Section 4.3 of the specification words the far bound with a ceiling
    division.  [spec_lo] and [spec_hi] follow that wording, to be compared
    with [y0], [y1], [x0] and [x1] above. *)

Definition ceil_div (a b : Z) : Z := - ((- a) / b).

Definition spec_lo (origin xtra r_out_to_primary : Z) : Z :=
  Z.max 0 (origin / r_out_to_primary - xtra - 1).

Definition spec_hi (origin size xtra r_out_to_primary source_extent : Z) : Z :=
  Z.min source_extent (ceil_div (origin + size) r_out_to_primary + xtra + 1).

(** ** Vocabulary of the properties *)

(** The cells of the mosaic that the write of tile [step] assigns: the two
    slices of [Y_hat_window], adjusted to the shape of [Y_hat], which is
    [final_shape] from its allocation on. *)
Definition written_rows (c : config) (step : Shape) : Z * Z :=
  slice_indices (y_slice c step) (y (final_shape c)).

Definition written_cols (c : config) (step : Shape) : Z * Z :=
  slice_indices (x_slice c step) (x (final_shape c)).

Definition writes (c : config) (step : Shape) (r k : Z) : bool :=
  in_range (written_rows c step) r && in_range (written_cols c step) k.

(** How many tiles of [steps] assign cell [(r, k)]. *)
Definition write_count (c : config) (steps : list Shape) (r k : Z) : nat :=
  length (filter (fun step => writes c step r k) steps).

Definition in_extent (c : config) (r k : Z) : Prop :=
  0 <= r < y (final_shape c) /\ 0 <= k < x (final_shape c).

(** One axis of the part of the mosaic that lies [xtra + 1] source pixels
    (four output pixels each) inside the far and near edges. *)
Definition core_axis (final xtra i : Z) : bool :=
  (xtra + 1 <=? i / 4) && (i / 4 <? final / 4 - xtra - 1).

Definition core (c : config) (r k : Z) : bool :=
  core_axis (y (final_shape c)) (y (xtrapad c)) r &&
  core_axis (x (final_shape c)) (x (xtrapad c)) k.

(** The nominal output rectangle of a tile,
    [step.y, step.y + ary_shape.y * 4) x [step.x, step.x + ary_shape.x * 4). *)
Definition nominal (c : config) (step : Shape) (r k : Z) : bool :=
  in_range (y step, y step + y (ary_shape c) * 4) r &&
  in_range (x step, x step + x (ary_shape c) * 4) k.

(** The rectangle of whole source pixels under a tile. *)
Definition footprint (c : config) (step : Shape) (r k : Z) : bool :=
  in_range (y step / 4 * 4, (y step + y (ary_shape c)) / 4 * 4) r &&
  in_range (x step / 4 * 4, (x step + x (ary_shape c)) / 4 * 4) k.

(** A mosaic has the shape it was allocated with. *)
Definition shaped (c : config) (Y_hat : ndarray) : Prop :=
  rows Y_hat = y (final_shape c) /\ cols Y_hat = x (final_shape c).

Definition nonneg (s : Shape) : Prop := 0 <= y s /\ 0 <= x s.

Definition positive (s : Shape) : Prop := 0 < y s /\ 0 < x s.

(** The tile origins of a configuration with positive strides, as the
    product of the two ranges. *)
Definition origins (ys xs : list Z) : list Shape :=
  flat_map (fun y_step => map (fun x_step => mkShape y_step x_step) xs) ys.

(** One axis of the window and of the write, shared by rows and columns. *)
Definition lo_axis (xtra st : Z) : Z := Z.max 0 (st / 4 - xtra - 1).

Definition hi_axis (final ary xtra st : Z) : Z :=
  Z.min (final / 4) ((st + ary) / 4 + xtra + 1).

Definition slice_axis (final ary xtra st : Z) : Z * Z :=
  ((lo_axis xtra st + xtra + 1) * 4, (hi_axis final ary xtra st - xtra - 1) * 4).

Definition writes_axis (final ary xtra i st : Z) : bool :=
  in_range (slice_indices (slice_axis final ary xtra st) final) i.

(** ** Configurations and inputs of the examples *)

(** Modelled from the spec: the generator [srgan_train.GeneratorModel] is
    loaded from another notebook and its [forward] is not part of
    [deepbedmap.py].  Section 4.5 of the specification sizes a raw
    prediction as the tile plus the padding on both sides, at output
    resolution; the crop holds one more source pixel on every edge
    (section 4.3), so the stand-in drops one source pixel per edge and
    upsamples four times.  It is used in examples only; a general statement
    below holds for any [forward], or names [generator_geometry] among its
    hypotheses. *)
Definition stand_in_forward (x_crop w1_crop w2_crop w3_crop : ndarray)
  : result ndarray :=
  Ok (mkArray (Z.max 0 ((rows x_crop - 2) * 4))
              (Z.max 0 ((cols x_crop - 2) * 4))
              (fun _ _ => Fin 1)).

(** A raster of the given shape, all zero. *)
Definition zeros (n m : Z) : ndarray := mkArray n m (fun _ _ => Fin 0).

(** The script with rasters that cover [final_shape] at their own
    resolutions (1, 10, 2 and 1 times that of BEDMAP2) and the stand-in
    generator. *)
Definition example_run (c : config) : outcome :=
  let n := y (final_shape c) / 4 in
  let m := x (final_shape c) / 4 in
  run (zeros n m) (zeros (n * 10) (m * 10)) (zeros (n * 2) (m * 2)) (zeros n m)
      stand_in_forward c.

Definition example_tile (c : config) (Y_hat : ndarray) (step : Shape)
  : result ndarray :=
  let n := y (final_shape c) / 4 in
  let m := x (final_shape c) / 4 in
  tile (zeros n m) (zeros (n * 10) (m * 10)) (zeros (n * 2) (m * 2)) (zeros n m)
       stand_in_forward c Y_hat step.

(** The cast of the examples: NaN becomes 0, which is what numpy yields
    on x86-64, and a finite cell keeps its integer code. *)
Definition stand_in_cast (v : float32) : Z :=
  match v with
  | NaN => 0
  | Fin n => n
  end.

Definition example_script (c : config) : script_outcome :=
  let n := y (final_shape c) / 4 in
  let m := x (final_shape c) / 4 in
  script (zeros n m) (zeros (n * 10) (m * 10)) (zeros (n * 2) (m * 2)) (zeros n m)
         stand_in_forward stand_in_cast c.

(** The boundary scenario of the specification: a 1000 x 1000 mosaic cut
    into tiles of 400 x 400. *)
Definition boundary_config (pad : Shape) : config :=
  {| final_shape := mkShape 1000 1000;
     ary_shape := mkShape 400 400;
     stride := mkShape 400 400;
     xtrapad := pad |}.

(** A small mosaic of 24 x 24 cells, 6 x 6 source pixels. *)
Definition small_config (ary str : Shape) : config :=
  {| final_shape := mkShape 24 24;
     ary_shape := ary;
     stride := str;
     xtrapad := mkShape 1 1 |}.

(** A mosaic of 40 x 40 cells cut into tiles whose size is not a multiple
    of four. *)
Definition odd_config : config :=
  {| final_shape := mkShape 40 40;
     ary_shape := mkShape 9 9;
     stride := mkShape 9 9;
     xtrapad := mkShape 1 1 |}.

(** [c] with another tile size. *)
Definition with_ary_shape (c : config) (ary : Shape) : config :=
  {| final_shape := final_shape c;
     ary_shape := ary;
     stride := stride c;
     xtrapad := xtrapad c |}.

(** The mosaic of a run that reached the export, and the array of a
    successful step; an empty array otherwise. *)
Definition saved_mosaic (o : outcome) : ndarray :=
  match o with
  | Saved Y_hat => Y_hat
  | Failed _ _ => zeros 0 0
  end.

Definition ok_array (r : result ndarray) : ndarray :=
  match r with
  | Ok a => a
  | Raise _ => zeros 0 0
  end.

(** The mosaic as allocated at lines 682-684. *)
Definition empty_mosaic (c : config) : ndarray :=
  mkArray (y (final_shape c)) (x (final_shape c)) (fun _ _ => NaN).

(** A slice with both bounds multiplied by a resolution ratio. *)
Definition scale (ratio : Z) (s : Z * Z) : Z * Z :=
  (fst s * ratio, snd s * ratio).

(** What the tiler relies on from its collaborators: the generator
    returns, for a crop of BEDMAP2 of n x m pixels, a prediction of
    4 (n - 2) x 4 (m - 2) cells (section 4.5 of the specification), and the
    raster of BEDMAP2 is at least as large as the extent the windows are
    clamped to. *)
Definition generator_geometry
  (forward : ndarray -> ndarray -> ndarray -> ndarray -> result ndarray) : Prop :=
  forall x_crop w1_crop w2_crop w3_crop, exists pred,
    forward x_crop w1_crop w2_crop w3_crop = Ok pred /\
    rows pred = Z.max 0 ((rows x_crop - 2) * 4) /\
    cols pred = Z.max 0 ((cols x_crop - 2) * 4).

Definition covers_extent (c : config) (X_tile : ndarray) : Prop :=
  y (final_shape c) / 4 <= rows X_tile /\ x (final_shape c) / 4 <= cols X_tile.

(** ** Vocabulary of the schedule and of the stitched values *)

(** Row-major order of tile origins: by row, then by column. *)
Definition Shape_lt (a b : Shape) : Prop :=
  y a < y b \/ (y a = y b /\ x a < x b).

(** The cell of the stride grid that starts at an origin. *)
Definition stride_cell (c : config) (step : Shape) (r k : Z) : bool :=
  in_range (y step, y step + y (stride c)) r &&
  in_range (x step, x step + x (stride c)) k.

(** A tile that no clamping touches along one axis: origin and size are
    whole source pixels, and the padded window lies inside the source. *)
Definition unclamped_axis (final ary xtra st : Z) : Prop :=
  st mod 4 = 0 /\ ary mod 4 = 0 /\
  xtra + 1 <= st / 4 /\ (st + ary) / 4 + xtra + 1 <= final / 4.

Definition unclamped (c : config) (step : Shape) : Prop :=
  unclamped_axis (y (final_shape c)) (y (ary_shape c)) (y (xtrapad c)) (y step) /\
  unclamped_axis (x (final_shape c)) (x (ary_shape c)) (x (xtrapad c)) (x step).

(** The largest crop of BEDMAP2 a tile can ask for along one axis. *)
Definition crop_bound (ary xtra : Z) : Z := (ary + 3) / 4 + 2 * xtra + 2.

(** The value that line 719 assigns to cell [(r, k)] of the mosaic for a
    tile whose write takes that cell: the cell of the trimmed prediction at
    the offset from the start of the target, broadcast where the trimmed
    prediction has length one. *)
Definition stitched_value
  (X_tile W1_tile W2_tile W3_tile : ndarray)
  (forward : ndarray -> ndarray -> ndarray -> ndarray -> result ndarray)
  (c : config) (step : Shape) (r k : Z) : float32 :=
  match Y_pred X_tile W1_tile W2_tile W3_tile forward c step with
  | Ok pred =>
      let v := getitem pred (trim_window c) in
      px v (bcast_index (rows v) (r - fst (written_rows c step)))
           (bcast_index (cols v) (k - fst (written_cols c step)))
  | Raise _ => NaN
  end.

(** A small mosaic tiled without any padding. *)
Definition unpadded_config : config :=
  {| final_shape := mkShape 24 24;
     ary_shape := mkShape 8 8;
     stride := mkShape 8 8;
     xtrapad := mkShape 0 0 |}.

(** The tiling loop alone over a given list of tiles, with the rasters and
    the stand-in generator of [example_run]. *)
Definition example_loop (c : config) (steps : list Shape) : outcome :=
  let n := y (final_shape c) / 4 in
  let m := x (final_shape c) / 4 in
  tile_loop (zeros n m) (zeros (n * 10) (m * 10)) (zeros (n * 2) (m * 2)) (zeros n m)
            stand_in_forward c steps (empty_mosaic c) [].

(** * Properties *)

Ltac div_lia := Z.to_euclidean_division_equations; lia.

Ltac bool_to_Z :=
  repeat match goal with
    | H : _ && _ = true |- _ => apply andb_true_iff in H; destruct H
    | H : _ && _ = false |- _ => apply andb_false_iff in H
    | H : _ || _ = true |- _ => apply orb_true_iff in H
    | H : _ || _ = false |- _ => apply orb_false_iff in H; destruct H
    | H : (_ <=? _) = true |- _ => apply Z.leb_le in H
    | H : (_ <=? _) = false |- _ => apply Z.leb_gt in H
    | H : (_ <? _) = true |- _ => apply Z.ltb_lt in H
    | H : (_ <? _) = false |- _ => apply Z.ltb_ge in H
    | H : (_ =? _) = true |- _ => apply Z.eqb_eq in H
    | H : (_ =? _) = false |- _ => apply Z.eqb_neq in H
    end.

(** ** [range] *)

Lemma range_len_lt (final s k : Z) :
  0 < s -> 0 <= k -> (k < range_len 0 final s <-> k * s < final).
Proof.
  intros Hs Hk. unfold range_len.
  destruct (0 <? s) eqn:E; bool_to_Z; [|lia].
  destruct (0 <? final) eqn:E'; bool_to_Z.
  - rewrite Z.sub_0_r. split; intro H.
    + assert (k <= (final - 1) / s) as H1 by lia.
      assert (k * s <= (final - 1) / s * s) by nia.
      assert ((final - 1) / s * s <= final - 1) by (rewrite Z.mul_comm; apply Z.mul_div_le; lia).
      lia.
    + assert (k <= (final - 1) / s); [|lia].
      apply Z.div_le_lower_bound; lia.
  - split; intro H; nia.
Qed.

Lemma py_range_zero (start stop : Z) : py_range start stop 0 = Raise ValueError.
Proof. reflexivity. Qed.

Lemma py_range_negative (stop s : Z) :
  0 <= stop -> s < 0 -> py_range 0 stop s = Ok [].
Proof.
  intros Hstop Hs. unfold py_range, range_len.
  destruct (s =? 0) eqn:E; bool_to_Z; [lia|].
  destruct (0 <? s) eqn:E1; bool_to_Z; [lia|].
  destruct (stop <? 0) eqn:E2; bool_to_Z; [lia|]. reflexivity.
Qed.

Lemma py_range_positive (final s : Z) :
  0 < s -> exists l, py_range 0 final s = Ok l /\ NoDup l /\
    forall v, In v l <-> exists k, 0 <= k /\ v = k * s /\ v < final.
Proof.
  intro Hs. unfold py_range.
  destruct (s =? 0) eqn:E; bool_to_Z; [lia|].
  eexists; split; [reflexivity|]. split.
  - apply Injective_map_NoDup; [|apply seq_NoDup].
    intros i j Hij. nia.
  - intro v. rewrite in_map_iff. split.
    + intros (i & Hv & Hi). apply in_seq in Hi. exists (Z.of_nat i).
      assert (Z.of_nat i < range_len 0 final s) as Hlt by lia.
      apply range_len_lt in Hlt; lia.
    + intros (k & Hk & Hv & Hlt). exists (Z.to_nat k).
      rewrite Z2Nat.id by lia. split; [lia|]. apply in_seq.
      subst v. apply range_len_lt in Hlt; lia.
Qed.

(** ** One axis of the write *)

Lemma y_slice_axis (c : config) (step : Shape) :
  y_slice c step =
  slice_axis (y (final_shape c)) (y (ary_shape c)) (y (xtrapad c)) (y step).
Proof. reflexivity. Qed.

Lemma x_slice_axis (c : config) (step : Shape) :
  x_slice c step =
  slice_axis (x (final_shape c)) (x (ary_shape c)) (x (xtrapad c)) (x step).
Proof. reflexivity. Qed.

Lemma writes_split (c : config) (step : Shape) (r k : Z) :
  writes c step r k =
  writes_axis (y (final_shape c)) (y (ary_shape c)) (y (xtrapad c)) r (y step) &&
  writes_axis (x (final_shape c)) (x (ary_shape c)) (x (xtrapad c)) k (x step).
Proof. reflexivity. Qed.

(** With non-negative sizes the adjusted slice is the raw one cut at the
    far edge of the mosaic; a negative stop only occurs when the start lies
    beyond the mosaic, and the slice is then empty. *)
Lemma writes_axis_iff (final ary xtra i st : Z) :
  0 <= final -> 0 <= ary -> 0 <= xtra -> 0 <= st ->
  writes_axis final ary xtra i st = true <->
  Z.max (xtra + 1) (st / 4) <= i / 4 < Z.min (final / 4 - xtra - 1) ((st + ary) / 4).
Proof.
  intros Hf Ha Hx Hs.
  unfold writes_axis, in_range, slice_indices, slice_axis, adjust_index,
    lo_axis, hi_axis; cbn [fst snd].
  rewrite andb_true_iff, Z.leb_le, Z.ltb_lt.
  destruct ((Z.max 0 (st / 4 - xtra - 1) + xtra + 1) * 4 <? 0) eqn:E1;
    destruct ((Z.min (final / 4) ((st + ary) / 4 + xtra + 1) - xtra - 1) * 4 <? 0) eqn:E2;
    bool_to_Z; div_lia.
Qed.

Lemma writes_axis_core (final ary xtra i st : Z) :
  0 <= final -> 0 <= ary -> 0 <= xtra -> 0 <= st ->
  writes_axis final ary xtra i st = true -> core_axis final xtra i = true.
Proof.
  intros Hf Ha Hx Hs H. apply writes_axis_iff in H; try assumption.
  unfold core_axis. apply andb_true_iff. rewrite Z.leb_le, Z.ltb_lt. lia.
Qed.

Lemma core_axis_extent (final xtra i : Z) :
  0 <= xtra -> core_axis final xtra i = true -> 0 <= i < final.
Proof.
  unfold core_axis. intros Hx H. bool_to_Z. div_lia.
Qed.

(** ** Counting *)

Lemma filter_none {A : Type} (P : A -> bool) (l : list A) :
  (forall b, In b l -> P b = false) -> filter P l = [].
Proof.
  induction l as [|a l IH]; intro H; [reflexivity|].
  cbn. rewrite (H a (or_introl eq_refl)). apply IH.
  intros b Hb. apply H. now right.
Qed.

Lemma filter_unique {A : Type} (P : A -> bool) (l : list A) (a : A) :
  NoDup l -> In a l -> P a = true ->
  (forall b, In b l -> P b = true -> b = a) ->
  length (filter P l) = 1%nat.
Proof.
  induction l as [|a0 l IH]; intros Hnd Hin Ha Huniq; [contradiction|].
  inversion Hnd as [|? ? Hnotin Hnd']; subst. cbn.
  destruct (P a0) eqn:E.
  - assert (a0 = a) by (apply Huniq; [now left|assumption]); subst a0.
    rewrite filter_none; [reflexivity|].
    intros b Hb. destruct (P b) eqn:Eb; [|reflexivity].
    assert (b = a) by (apply Huniq; [now right|assumption]). congruence.
  - destruct Hin as [->|Hin]; [congruence|].
    apply IH; try assumption.
    intros b Hb. apply Huniq. now right.
Qed.

(** The tiles of one axis: with tile size equal to the stride, exactly one
    of them takes a position of the core, and none takes any other. *)
Lemma axis_count (final s xtra i : Z) (l : list Z) :
  0 <= final -> 0 < s -> 0 <= xtra ->
  py_range 0 final s = Ok l ->
  length (filter (writes_axis final s xtra i) l) =
  if core_axis final xtra i then 1%nat else 0%nat.
Proof.
  intros Hf Hs Hx Hl.
  destruct (py_range_positive final s Hs) as (l' & Hl' & Hnd & Hin).
  rewrite Hl in Hl'. injection Hl' as <-.
  assert (Hst : forall st, In st l -> 0 <= st).
  { intros st H. apply Hin in H. destruct H as (k & ? & ? & ?). nia. }
  destruct (core_axis final xtra i) eqn:Ecore.
  - unfold core_axis in Ecore. bool_to_Z.
    set (q := 4 * (i / 4) + 3).
    assert (Hq : 0 <= q < final) by (subst q; div_lia).
    assert (Hq4 : i / 4 = q / 4) by (subst q; div_lia).
    assert (Hq3 : q mod 4 = 3) by (subst q; div_lia).
    assert (Hlo : q / s * s <= q)
      by (rewrite Z.mul_comm; apply Z.mul_div_le; lia).
    assert (Hhi : q < q / s * s + s).
    { pose proof (Z.mul_succ_div_gt q s Hs). lia. }
    assert (Hk : 0 <= q / s) by (apply Z.div_pos; lia).
    clearbody q.
    remember (q / s) as kq eqn:Ekq. clear Ekq.
    apply (filter_unique _ _ (kq * s) Hnd).
    + apply Hin. exists kq. lia.
    + assert (0 <= kq * s) by nia.
      apply writes_axis_iff; try lia.
      remember (kq * s) as st eqn:Est. clear Est. div_lia.
    + intros b Hb Hw. pose proof (Hst b Hb) as Hb0.
      apply writes_axis_iff in Hw; try lia.
      apply Hin in Hb. destruct Hb as (k & Hk' & -> & Hlt).
      assert (k * s <= q < k * s + s).
      { remember (k * s) as st eqn:Est. clear Est. div_lia. }
      f_equal. nia.
  - rewrite filter_none; [reflexivity|].
    intros b Hb. destruct (writes_axis final s xtra i b) eqn:E; [|reflexivity].
    apply writes_axis_core in E; try lia; [congruence|]. now apply Hst.
Qed.

(** ** The schedule *)

Lemma schedule_rows_ok (c : config) (cols_ : list Z) (rows_ : list Z) (acc : list Shape) :
  py_range 0 (x (final_shape c)) (x (stride c)) = Ok cols_ ->
  schedule_rows c rows_ acc = (acc ++ origins rows_ cols_, None).
Proof.
  intro H. revert acc.
  induction rows_ as [|r rows_ IH]; intro acc; cbn.
  - now rewrite app_nil_r.
  - rewrite H, IH. unfold append_row. now rewrite <- app_assoc.
Qed.

Lemma schedule_rows_raise (c : config) (e : exn) (rows_ : list Z) (acc : list Shape) :
  py_range 0 (x (final_shape c)) (x (stride c)) = Raise e ->
  schedule_rows c rows_ acc =
  (acc, match rows_ with [] => None | _ :: _ => Some e end).
Proof.
  intro H. destruct rows_ as [|r rows_]; cbn; [reflexivity|]. now rewrite H.
Qed.

Lemma schedule_positive (c : config) :
  positive (stride c) ->
  exists rows_ cols_,
    py_range 0 (y (final_shape c)) (y (stride c)) = Ok rows_ /\
    py_range 0 (x (final_shape c)) (x (stride c)) = Ok cols_ /\
    schedule c = (origins rows_ cols_, None).
Proof.
  intros [Hy Hx].
  destruct (py_range_positive (y (final_shape c)) _ Hy) as (rows_ & Hr & _).
  destruct (py_range_positive (x (final_shape c)) _ Hx) as (cols_ & Hc & _).
  exists rows_, cols_. repeat split; try assumption.
  unfold schedule. rewrite Hr. now rewrite (schedule_rows_ok c cols_).
Qed.

Lemma in_origins (rows_ cols_ : list Z) (step : Shape) :
  In step (origins rows_ cols_) <-> In (y step) rows_ /\ In (x step) cols_.
Proof.
  unfold origins. rewrite in_flat_map. split.
  - intros (r & Hr & Hin). apply in_map_iff in Hin.
    destruct Hin as (k & <- & Hk). now split.
  - intros [Hr Hk]. exists (y step). split; [assumption|].
    apply in_map_iff. exists (x step). destruct step; now split.
Qed.

(** Whatever the strides, a tile that was scheduled has an origin inside
    the mosaic, on the grid of the two strides, which are then positive. *)
Lemma schedule_In (c : config) (step : Shape) :
  nonneg (final_shape c) ->
  In step (fst (schedule c)) ->
  positive (stride c) /\
  (exists i, 0 <= i /\ y step = i * y (stride c) /\ y step < y (final_shape c)) /\
  (exists j, 0 <= j /\ x step = j * x (stride c) /\ x step < x (final_shape c)).
Proof.
  intros [Hfy Hfx] Hin. unfold schedule in Hin.
  destruct (Z.lt_trichotomy (y (stride c)) 0) as [Hy|[Hy|Hy]].
  - rewrite py_range_negative in Hin by assumption. contradiction.
  - rewrite Hy, py_range_zero in Hin. contradiction.
  - destruct (py_range_positive (y (final_shape c)) _ Hy) as (rows_ & Hr & _ & Hrows).
    rewrite Hr in Hin.
    destruct (Z.lt_trichotomy (x (stride c)) 0) as [Hx|[Hx|Hx]].
    + rewrite (schedule_rows_ok c []) in Hin by now apply py_range_negative.
      apply in_origins in Hin. now destruct Hin.
    + rewrite (schedule_rows_raise c ValueError) in Hin
        by (rewrite Hx; apply py_range_zero).
      contradiction.
    + destruct (py_range_positive (x (final_shape c)) _ Hx) as (cols_ & Hc & _ & Hcols).
      rewrite (schedule_rows_ok c cols_) in Hin by assumption.
      apply in_origins in Hin. destruct Hin as [H1 H2].
      apply Hrows in H1. apply Hcols in H2.
      split; [now split|]. now split.
Qed.

Lemma schedule_In_nonneg (c : config) (step : Shape) :
  nonneg (final_shape c) -> In step (fst (schedule c)) -> nonneg step.
Proof.
  intros Hf Hin. destruct (schedule_In c step Hf Hin) as ([? ?] & (i & ? & ? & ?) & (j & ? & ? & ?)).
  split; nia.
Qed.

Lemma count_origins (P Q : Z -> bool) (rows_ cols_ : list Z) :
  length (filter (fun step => P (y step) && Q (x step)) (origins rows_ cols_)) =
  (length (filter P rows_) * length (filter Q cols_))%nat.
Proof.
  unfold origins. induction rows_ as [|r rows_ IH]; [reflexivity|].
  cbn [flat_map filter]. rewrite filter_app, length_app, IH.
  assert (Hrow : length (filter (fun step => P (y step) && Q (x step))
                           (map (fun x_step => mkShape r x_step) cols_)) =
                 if P r then length (filter Q cols_) else 0%nat).
  { clear IH. induction cols_ as [|k cols_ IHc]; cbn.
    - now destruct (P r).
    - destruct (P r), (Q k); cbn in *; auto. }
  rewrite Hrow. destruct (P r); cbn [length]; lia.
Qed.

(** With tile size equal to a positive stride, a cell of the mosaic is
    assigned by exactly one tile when it lies in the core and by no tile
    otherwise. *)
Lemma write_count_core (c : config) (steps : list Shape) (r k : Z) :
  stride c = ary_shape c -> positive (stride c) ->
  nonneg (final_shape c) -> nonneg (xtrapad c) ->
  schedule c = (steps, None) ->
  write_count c steps r k = if core c r k then 1%nat else 0%nat.
Proof.
  intros Heq Hpos [Hfy Hfx] [Hpy Hpx] Hs.
  destruct (schedule_positive c Hpos) as (rows_ & cols_ & Hr & Hc & Hs').
  rewrite Hs in Hs'. injection Hs' as ->.
  unfold write_count.
  rewrite (filter_ext _ (fun step =>
     writes_axis (y (final_shape c)) (y (ary_shape c)) (y (xtrapad c)) r (y step) &&
     writes_axis (x (final_shape c)) (x (ary_shape c)) (x (xtrapad c)) k (x step)))
    by (intro; apply writes_split).
  rewrite (count_origins (writes_axis _ _ _ r) (writes_axis _ _ _ k)).
  rewrite <- Heq. destruct Hpos as [Hsy Hsx].
  rewrite (axis_count _ _ _ r rows_), (axis_count _ _ _ k cols_) by assumption.
  unfold core. now destruct (core_axis _ _ r), (core_axis _ _ k).
Qed.

(** ** The write of one tile and the loop *)

Lemma np_full_ok (shape : Shape) (v : float32) (a : ndarray) :
  np_full shape v = Ok a ->
  nonneg shape /\ rows a = y shape /\ cols a = x shape /\
  forall r k, px a r k = v.
Proof.
  unfold np_full, nonneg.
  destruct ((y shape <? 0) || (x shape <? 0)) eqn:E; [discriminate|].
  intros [= <-]. bool_to_Z. cbn. repeat split; lia.
Qed.

Lemma setitem_ok (a : ndarray) (w : window) (v a' : ndarray) :
  setitem a w v = Ok a' ->
  rows a' = rows a /\ cols a' = cols a /\
  forall r k,
    in_range (slice_indices (ys w) (rows a)) r &&
    in_range (slice_indices (xs w) (cols a)) k = false ->
    px a' r k = px a r k.
Proof.
  unfold setitem.
  destruct (broadcasts _ _ && broadcasts _ _); [|discriminate].
  intros [= <-]. cbn. repeat split. intros r k H. now rewrite H.
Qed.

Section Loop.

Variables X_tile W1_tile W2_tile W3_tile : ndarray.
Variable forward : ndarray -> ndarray -> ndarray -> ndarray -> result ndarray.

Local Abbreviation tile' := (tile X_tile W1_tile W2_tile W3_tile forward).
Local Abbreviation tile_loop' := (tile_loop X_tile W1_tile W2_tile W3_tile forward).
Local Abbreviation run' := (run X_tile W1_tile W2_tile W3_tile forward).

Lemma tile_frame (c : config) (Y_hat Y_hat' : ndarray) (step : Shape) :
  shaped c Y_hat ->
  tile' c Y_hat step = Ok Y_hat' ->
  shaped c Y_hat' /\
  forall r k, writes c step r k = false -> px Y_hat' r k = px Y_hat r k.
Proof.
  intros [Hr Hc] H. unfold tile, bind in H.
  destruct (Y_pred _ _ _ _ _ c step) as [pred|e]; [|discriminate].
  apply setitem_ok in H. destruct H as (Hr' & Hc' & Hpx).
  split; [split; congruence|].
  intros r k Hw. apply Hpx. cbn [Y_hat_window ys xs].
  rewrite Hr, Hc. exact Hw.
Qed.

Lemma tile_loop_frame (c : config) (steps : list Shape) :
  forall (Y_hat Y_hat' : ndarray) (inferred : list Shape),
  shaped c Y_hat ->
  tile_loop' c steps Y_hat inferred = Saved Y_hat' ->
  shaped c Y_hat' /\
  forall r k, write_count c steps r k = 0%nat -> px Y_hat' r k = px Y_hat r k.
Proof.
  induction steps as [|step steps IH]; intros Y_hat Y_hat' inferred Hsh H.
  - injection H as <-. now split.
  - cbn in H.
    destruct (tile' c Y_hat step) as [Y1|e] eqn:E; [|discriminate].
    destruct (tile_frame c Y_hat Y1 step Hsh E) as [Hsh1 Hpx1].
    destruct (IH Y1 Y_hat' _ Hsh1 H) as [Hsh' Hpx'].
    split; [assumption|]. intros r k Hcount.
    unfold write_count in Hcount. cbn in Hcount.
    destruct (writes c step r k) eqn:Ew; [discriminate|].
    rewrite Hpx' by exact Hcount. now apply Hpx1.
Qed.

(** A run that reaches the export went through the allocation, a complete
    schedule and the loop over all its tiles. *)
Lemma run_saved (c : config) (Y_hat : ndarray) :
  run' c = Saved Y_hat ->
  nonneg (final_shape c) /\
  exists steps, schedule c = (steps, None) /\
    tile_loop' c steps (empty_mosaic c) [] = Saved Y_hat.
Proof.
  unfold run. intro H.
  destruct (np_full (final_shape c) NaN) as [Y0|e] eqn:E0; [|discriminate].
  pose proof (np_full_ok _ _ _ E0) as (Hnn & _).
  unfold np_full in E0.
  destruct ((y (final_shape c) <? 0) || (x (final_shape c) <? 0)); [discriminate|].
  injection E0 as <-.
  destruct (schedule c) as [steps [e|]] eqn:Es; [discriminate|].
  split; [assumption|]. exists steps. now split.
Qed.

Lemma scheduled_outside_core (c : config) (steps : list Shape) (r k : Z) :
  nonneg (final_shape c) -> nonneg (ary_shape c) -> nonneg (xtrapad c) ->
  schedule c = (steps, None) ->
  core c r k = false -> write_count c steps r k = 0%nat.
Proof.
  intros Hf [Hay Hax] [Hpy Hpx] Hs Hcore.
  unfold write_count. rewrite filter_none; [reflexivity|].
  intros step Hin. destruct (writes c step r k) eqn:Ew; [|reflexivity].
  assert (Hin' : In step (fst (schedule c))) by now rewrite Hs.
  destruct (schedule_In_nonneg c step Hf Hin') as [Hsy Hsx].
  destruct Hf as [Hfy Hfx].
  rewrite writes_split in Ew. apply andb_true_iff in Ew. destruct Ew as [E1 E2].
  apply writes_axis_core in E1; try assumption.
  apply writes_axis_core in E2; try assumption.
  unfold core in Hcore. rewrite E1, E2 in Hcore. discriminate.
Qed.

(** Outside the core the exported mosaic still holds the fill value. *)
Lemma run_outside_core (c : config) (Y_hat : ndarray) (r k : Z) :
  nonneg (ary_shape c) -> nonneg (xtrapad c) ->
  run' c = Saved Y_hat ->
  core c r k = false -> px Y_hat r k = NaN.
Proof.
  intros Ha Hp Hrun Hcore.
  destruct (run_saved c Y_hat Hrun) as (Hf & steps & Hs & Hloop).
  apply tile_loop_frame in Hloop; [|now split].
  destruct Hloop as [_ Hpx]. rewrite Hpx; [reflexivity|].
  now apply scheduled_outside_core.
Qed.

(** *** Completion

    With a padding of at least one source pixel the trimmed prediction has
    the shape of the target of the write, whatever the clamping did, so no
    tile raises and the run reaches the export. *)

Lemma slice_len_inside (lo hi n : Z) :
  0 <= lo <= hi -> hi <= n -> slice_len (slice_indices (lo, hi) n) = hi - lo.
Proof.
  intros H Hn. unfold slice_len, slice_indices, adjust_index; cbn [fst snd].
  destruct (lo <? 0) eqn:E1; destruct (hi <? 0) eqn:E2; bool_to_Z; lia.
Qed.

Lemma trim_len (xtra m : Z) :
  1 <= xtra -> 0 <= m ->
  slice_len (slice_indices (xtra * 4, - xtra * 4) m) = Z.max 0 (m - 8 * xtra).
Proof.
  intros Hx Hm. unfold slice_len, slice_indices, adjust_index; cbn [fst snd].
  destruct (xtra * 4 <? 0) eqn:E1; destruct (- xtra * 4 <? 0) eqn:E2;
    bool_to_Z; lia.
Qed.

Lemma axis_shapes_agree (final ary xtra st n : Z) :
  0 <= final -> 0 <= ary -> 1 <= xtra -> 0 <= st < final -> final / 4 <= n ->
  slice_len
    (slice_indices (xtra * 4, - xtra * 4)
       (Z.max 0 ((slice_len (slice_indices (lo_axis xtra st, hi_axis final ary xtra st) n)
                  - 2) * 4)))
  = slice_len (slice_indices (slice_axis final ary xtra st) final).
Proof.
  intros Hf Ha Hx Hs Hn.
  assert (Hlo : 0 <= lo_axis xtra st <= final / 4) by (unfold lo_axis; div_lia).
  assert (Hhi : lo_axis xtra st <= hi_axis final ary xtra st <= final / 4)
    by (unfold lo_axis, hi_axis; div_lia).
  assert (Hfd : 4 * (final / 4) <= final < 4 * (final / 4) + 4) by div_lia.
  assert (Hhi' : Z.min (final / 4) (xtra + 1) <= hi_axis final ary xtra st)
    by (unfold hi_axis; div_lia).
  rewrite (slice_len_inside (lo_axis xtra st) (hi_axis final ary xtra st) n) by lia.
  rewrite trim_len by lia.
  unfold slice_len, slice_indices, slice_axis, adjust_index; cbn [fst snd].
  remember (lo_axis xtra st) as lo eqn:Elo.
  remember (hi_axis final ary xtra st) as hi eqn:Ehi.
  remember (final / 4) as e eqn:Ee. clear Elo Ehi Ee.
  destruct ((lo + xtra + 1) * 4 <? 0) eqn:E1;
    destruct ((hi - xtra - 1) * 4 <? 0) eqn:E2; bool_to_Z; lia.
Qed.

Lemma tile_completes (c : config) (Y_hat : ndarray) (step : Shape) :
  generator_geometry forward -> covers_extent c X_tile ->
  nonneg (final_shape c) -> nonneg (ary_shape c) ->
  1 <= y (xtrapad c) -> 1 <= x (xtrapad c) ->
  In step (fst (schedule c)) ->
  shaped c Y_hat ->
  exists Y_hat', tile' c Y_hat step = Ok Y_hat'.
Proof.
  intros Hgen [Hcy Hcx] Hf [Hay Hax] Hpy Hpx Hin [Hr Hc].
  destruct (schedule_In c step Hf Hin)
    as ([Hsy Hsx] & (i & Hi & Hyi & Hylt) & (j & Hj & Hxj & Hxlt)).
  assert (0 <= y step) by nia. assert (0 <= x step) by nia.
  destruct Hf as [Hfy Hfx].
  unfold tile, Y_pred, bind.
  destruct (Hgen (getitem X_tile (X_window c step))
                 (getitem W1_tile (W1_window c step))
                 (getitem W2_tile (W2_window c step))
                 (getitem W3_tile (W3_window c step))) as (pred & -> & Hpr & Hpc).
  unfold setitem. cbn [Y_hat_window ys xs].
  assert (Hrows : rows (getitem pred (trim_window c))
                  = slice_len (slice_indices (y_slice c step) (rows Y_hat))).
  { rewrite Hr, y_slice_axis.
    rewrite <- (axis_shapes_agree _ _ _ _ (rows X_tile)) by lia.
    cbn [getitem rows trim_window ys]. rewrite Hpr. reflexivity. }
  assert (Hcols : cols (getitem pred (trim_window c))
                  = slice_len (slice_indices (x_slice c step) (cols Y_hat))).
  { rewrite Hc, x_slice_axis.
    rewrite <- (axis_shapes_agree _ _ _ _ (cols X_tile)) by lia.
    cbn [getitem cols trim_window xs]. rewrite Hpc. reflexivity. }
  rewrite Hrows, Hcols. unfold broadcasts. rewrite !Z.eqb_refl. cbn.
  eexists. reflexivity.
Qed.

Lemma tile_loop_completes (c : config) (steps : list Shape) :
  generator_geometry forward -> covers_extent c X_tile ->
  nonneg (final_shape c) -> nonneg (ary_shape c) ->
  1 <= y (xtrapad c) -> 1 <= x (xtrapad c) ->
  (forall step, In step steps -> In step (fst (schedule c))) ->
  forall (Y_hat : ndarray) (inferred : list Shape),
  shaped c Y_hat ->
  exists Y_hat', tile_loop' c steps Y_hat inferred = Saved Y_hat'.
Proof.
  intros Hgen Hcov Hf Ha Hpy Hpx.
  induction steps as [|step steps IH]; intros Hin Y_hat inferred Hsh.
  - now exists Y_hat.
  - destruct (tile_completes c Y_hat step Hgen Hcov Hf Ha Hpy Hpx
                (Hin step (or_introl eq_refl)) Hsh) as (Y1 & HY1).
    cbn. rewrite HY1.
    apply IH; [intros s Hs; apply Hin; now right|].
    now destruct (tile_frame c Y_hat Y1 step Hsh HY1).
Qed.

(** A run over non-negative sizes with positive strides and a padding of
    at least one reaches the export, whether or not the stride is the tile
    size. *)
Lemma run_completes (c : config) :
  generator_geometry forward -> covers_extent c X_tile ->
  nonneg (final_shape c) -> nonneg (ary_shape c) ->
  1 <= y (xtrapad c) -> 1 <= x (xtrapad c) ->
  positive (stride c) ->
  exists Y_hat, run' c = Saved Y_hat.
Proof.
  intros Hgen Hcov Hf Ha Hpy Hpx Hpos.
  destruct (schedule_positive c Hpos) as (rows_ & cols_ & _ & _ & Hs).
  unfold run, np_full. rewrite Hs. destruct Hf as [Hfy Hfx].
  destruct ((y (final_shape c) <? 0) || (x (final_shape c) <? 0)) eqn:E;
    bool_to_Z; [lia|].
  apply tile_loop_completes; try assumption.
  - now split.
  - intros step Hin. now rewrite Hs.
  - now split.
Qed.

End Loop.

Lemma core_axis_bounds (final xtra i : Z) :
  core_axis final xtra i = true <->
  4 * (xtra + 1) <= i < 4 * (final / 4 - xtra - 1).
Proof.
  unfold core_axis. rewrite andb_true_iff, Z.leb_le, Z.ltb_lt. div_lia.
Qed.

Lemma core_bounds (c : config) (r k : Z) :
  core c r k = true <->
  4 * (y (xtrapad c) + 1) <= r < 4 * (y (final_shape c) / 4 - y (xtrapad c) - 1) /\
  4 * (x (xtrapad c) + 1) <= k < 4 * (x (final_shape c) / 4 - x (xtrapad c) - 1).
Proof.
  unfold core. now rewrite andb_true_iff, !core_axis_bounds.
Qed.

(** * The tiling of the mosaic *)

(** C1, as stated, fails on the configuration of the script itself: tile
    size and stride are equal, the schedule is complete, yet no tile assigns
    the corner cell (0, 0) of the mosaic, and after a run that reaches the
    export the cell still holds the fill value. *)
Lemma reference_corner_never_written :
  stride reference_config = ary_shape reference_config /\
  in_extent reference_config 0 0 /\
  snd (schedule reference_config) = None /\
  write_count reference_config (fst (schedule reference_config)) 0 0 = 0%nat /\
  match example_run reference_config with
  | Saved Y_hat => px Y_hat 0 0 = NaN
  | Failed _ _ => False
  end.
Proof.
  split; [reflexivity|]. split; [unfold in_extent; cbn; lia|].
  split; [now vm_compute|]. split; now vm_compute.
Qed.

(** C1, amended: with tile size equal to a positive stride and
    non-negative sizes, the rectangles written by the scheduled tiles tile
    the core of the mosaic, the rectangle that starts [xtrapad + 1] source
    pixels inside the near edges and ends as many inside the far edges,
    [4 (xtrapad.y + 1), 4 (final_shape.y // 4 - xtrapad.y - 1)) by the same
    in x: every cell of the core is assigned by exactly one tile and every
    other cell by none.  The core lies inside the mosaic, and after a run
    that reaches the export every cell outside the core still holds the
    fill value. *)
Theorem core_written_exactly_once
  (X_tile W1_tile W2_tile W3_tile : ndarray)
  (forward : ndarray -> ndarray -> ndarray -> ndarray -> result ndarray)
  (c : config) (steps : list Shape) :
  stride c = ary_shape c -> positive (stride c) ->
  nonneg (final_shape c) -> nonneg (xtrapad c) ->
  schedule c = (steps, None) ->
  (forall r k, write_count c steps r k = if core c r k then 1%nat else 0%nat) /\
  (forall r k, core c r k = true <->
     4 * (y (xtrapad c) + 1) <= r < 4 * (y (final_shape c) / 4 - y (xtrapad c) - 1) /\
     4 * (x (xtrapad c) + 1) <= k < 4 * (x (final_shape c) / 4 - x (xtrapad c) - 1)) /\
  (forall r k, core c r k = true -> in_extent c r k) /\
  (forall Y_hat, run X_tile W1_tile W2_tile W3_tile forward c = Saved Y_hat ->
     forall r k, core c r k = false -> px Y_hat r k = NaN).
Proof.
  intros Heq Hpos Hf Hp Hs. split; [|split; [|split]].
  - intros r k. now apply write_count_core.
  - apply core_bounds.
  - intros r k H. unfold core in H. apply andb_true_iff in H.
    destruct H as [H1 H2], Hp as [Hpy Hpx].
    apply core_axis_extent in H1, H2; try assumption. now split.
  - intros Y_hat Hrun r k Hcore.
    apply (run_outside_core X_tile W1_tile W2_tile W3_tile forward c Y_hat r k);
      try assumption.
    rewrite <- Heq. destruct Hpos. split; lia.
Qed.

Lemma core_written_exactly_once_witness :
  write_count reference_config (fst (schedule reference_config)) 76 76 = 1%nat /\
  write_count reference_config (fst (schedule reference_config)) 75 76 = 0%nat.
Proof.
  assert (Heq : stride reference_config = ary_shape reference_config) by reflexivity.
  assert (Hpos : positive (stride reference_config)) by (split; cbn; lia).
  assert (Hf : nonneg (final_shape reference_config)) by (split; cbn; lia).
  assert (Hp : nonneg (xtrapad reference_config)) by (split; cbn; lia).
  assert (Hs : schedule reference_config = (fst (schedule reference_config), None))
    by (vm_compute; reflexivity).
  destruct (core_written_exactly_once (zeros 0 0) (zeros 0 0) (zeros 0 0) (zeros 0 0)
              stand_in_forward reference_config _ Heq Hpos Hf Hp Hs) as (H & _).
  split; [exact (H 76 76)|exact (H 75 76)].
Defined.

(** * The window mapper *)

(** C2, as stated, fails: the far bound of the window is computed with a
    floor division.  For the first tile of a 40 x 40 mosaic cut into tiles of
    9 x 9 the script takes rows up to 4 where the ceiling gives 5. *)
Lemma far_bound_is_not_a_ceiling :
  In (mkShape 0 0) (fst (schedule odd_config)) /\
  y1 odd_config (mkShape 0 0) = 4 /\
  spec_hi (y (mkShape 0 0)) (y (ary_shape odd_config)) (y (xtrapad odd_config)) 4
          (y (final_shape odd_config) / 4) = 5.
Proof.
  split; [now left|]. split; reflexivity.
Qed.

(** C2, amended: the near bounds are those of the specification,
    [max(0, floor(origin / 4) - xtrapad - 1)]; the far bounds are
    [min(final_shape // 4, floor((origin + ary_shape) / 4) + xtrapad + 1)],
    with a floor division too.  They fall short of the bound worded with
    a ceiling by at most one, and agree with it whenever the far edge
    [origin + ary_shape] of the tile is a multiple of four. *)
Theorem window_bounds_floor (c : config) (step : Shape) :
  let hi_y := spec_hi (y step) (y (ary_shape c)) (y (xtrapad c)) 4 (y (final_shape c) / 4) in
  let hi_x := spec_hi (x step) (x (ary_shape c)) (x (xtrapad c)) 4 (x (final_shape c) / 4) in
  y0 c step = spec_lo (y step) (y (xtrapad c)) 4 /\
  x0 c step = spec_lo (x step) (x (xtrapad c)) 4 /\
  y1 c step = Z.min (y (final_shape c) / 4)
                    ((y step + y (ary_shape c)) / 4 + y (xtrapad c) + 1) /\
  x1 c step = Z.min (x (final_shape c) / 4)
                    ((x step + x (ary_shape c)) / 4 + x (xtrapad c) + 1) /\
  hi_y - 1 <= y1 c step <= hi_y /\
  hi_x - 1 <= x1 c step <= hi_x /\
  ((y step + y (ary_shape c)) mod 4 = 0 -> y1 c step = hi_y) /\
  ((x step + x (ary_shape c)) mod 4 = 0 -> x1 c step = hi_x).
Proof.
  cbv zeta. unfold y0, x0, y1, x1, spec_lo, spec_hi, ceil_div.
  repeat apply conj;
    lazymatch goal with |- _ -> _ => intro | |- _ => idtac end; div_lia.
Qed.

Lemma window_bounds_floor_witness :
  y1 reference_config (mkShape 17000 21000) = 4500 /\
  spec_hi 17000 1000 18 4 4500 = 4500.
Proof.
  pose proof (window_bounds_floor reference_config (mkShape 17000 21000))
    as (_ & _ & _ & _ & _ & _ & H & _).
  split; [reflexivity|]. symmetry. apply H. reflexivity.
Defined.

(** * The boundary scenario *)

(** C3, as stated, fails: with the padding of the script the last tile of
    the scenario writes rows and columns 800 to 923, not 800 to 999. *)
Lemma boundary_tile_is_not_200_wide :
  written_rows (boundary_config (mkShape 18 18)) (mkShape 800 800) = (800, 924) /\
  written_cols (boundary_config (mkShape 18 18)) (mkShape 800 800) = (800, 924) /\
  written_rows (boundary_config (mkShape 18 18)) (mkShape 800 800) <> (800, 1000).
Proof.
  repeat split; try reflexivity. vm_compute. discriminate.
Qed.

(** C3, amended: in the scenario the scheduler yields the nine origins in
    row-major order, and the tile at (800, 800) writes the rectangle
    [800, 996 - 4 xtrapad.y) x [800, 996 - 4 xtrapad.x): the far edge is cut
    [xtrapad + 1] source pixels inside the mosaic.  With the padding 18 of
    the script that is [800, 924) x [800, 924), 124 x 124 cells. *)
Theorem boundary_scenario (pad : Shape) :
  0 <= y pad <= 199 -> 0 <= x pad <= 199 ->
  schedule (boundary_config pad) =
    ([mkShape 0 0; mkShape 0 400; mkShape 0 800;
      mkShape 400 0; mkShape 400 400; mkShape 400 800;
      mkShape 800 0; mkShape 800 400; mkShape 800 800], None) /\
  written_rows (boundary_config pad) (mkShape 800 800) = (800, 996 - 4 * y pad) /\
  written_cols (boundary_config pad) (mkShape 800 800) = (800, 996 - 4 * x pad).
Proof.
  intros Hy Hx. split; [reflexivity|].
  unfold written_rows, written_cols, slice_indices, y_slice, x_slice, y0, x0, y1, x1,
    adjust_index; cbn [fst snd boundary_config final_shape ary_shape xtrapad y x].
  change (800 / 4) with 200. change ((800 + 400) / 4) with 300.
  change (1000 / 4) with 250.
  split; f_equal;
    repeat match goal with
      | |- context [if ?b then _ else _] => destruct b eqn:?; bool_to_Z
      end; lia.
Qed.

Lemma boundary_scenario_witness :
  written_rows (boundary_config (mkShape 18 18)) (mkShape 800 800) = (800, 924) /\
  slice_len (written_cols (boundary_config (mkShape 18 18)) (mkShape 800 800)) = 124.
Proof.
  destruct (boundary_scenario (mkShape 18 18)) as (_ & Hr & Hc); [cbn; lia|cbn; lia|].
  split; [exact Hr|]. rewrite Hc. reflexivity.
Defined.

(** * The export *)

(** C4, as stated, fails: in the run of the script's own configuration the
    corner cell of the mosaic still holds the fill value when the loop is
    over, and the script calls [save_array_to_grid] all the same; the cell
    is exported as the int16 that the cast makes of NaN. *)
Lemma sentinel_pixel_is_exported :
  in_extent reference_config 0 0 /\
  match example_run reference_config with
  | Saved Y_hat => is_nan (px Y_hat 0 0) = true
  | Failed _ _ => False
  end /\
  match example_script reference_config with
  | Exported array => px16 array 0 0 = stand_in_cast NaN
  | Aborted _ _ => False
  end.
Proof.
  split; [unfold in_extent; cbn; lia|]. split; now vm_compute.
Qed.

(** C4, amended: nothing stands between the tiling loop and the export.
    Whenever the loop over the schedule ends without an exception, whatever
    the mosaic then holds, the script calls [save_array_to_grid] on the
    int16 cast of that mosaic.  Every cell outside the core, among them the
    corner (0, 0) of any mosaic that is not empty, still holds the fill
    value at that point and is exported as the cast of NaN, undetected.
    With a generator of the expected geometry, a raster that covers the
    extent, positive strides and a padding of at least one, the script
    does reach the export in this state. *)
Theorem no_check_before_export
  (X_tile W1_tile W2_tile W3_tile : ndarray)
  (forward : ndarray -> ndarray -> ndarray -> ndarray -> result ndarray)
  (cast : float32 -> Z) (c : config) :
  nonneg (ary_shape c) -> nonneg (xtrapad c) ->
  (forall steps Y_hat,
     nonneg (final_shape c) ->
     schedule c = (steps, None) ->
     tile_loop X_tile W1_tile W2_tile W3_tile forward c steps (empty_mosaic c) []
     = Saved Y_hat ->
     script X_tile W1_tile W2_tile W3_tile forward cast c
     = Exported (astype cast Y_hat) /\
     forall r k, core c r k = false ->
       px Y_hat r k = NaN /\ px16 (astype cast Y_hat) r k = cast NaN) /\
  (0 < y (final_shape c) -> 0 < x (final_shape c) ->
   in_extent c 0 0 /\ core c 0 0 = false) /\
  (generator_geometry forward -> covers_extent c X_tile ->
   nonneg (final_shape c) -> positive (stride c) ->
   1 <= y (xtrapad c) -> 1 <= x (xtrapad c) ->
   exists Y_hat,
     script X_tile W1_tile W2_tile W3_tile forward cast c
     = Exported (astype cast Y_hat) /\
     forall r k, core c r k = false -> px Y_hat r k = NaN).
Proof.
  intros Ha Hp. split; [|split].
  - intros steps Y_hat [Hfy Hfx] Hs Hloop.
    assert (Hrun : run X_tile W1_tile W2_tile W3_tile forward c = Saved Y_hat).
    { unfold run, np_full. rewrite Hs.
      destruct ((y (final_shape c) <? 0) || (x (final_shape c) <? 0)) eqn:E;
        bool_to_Z; [lia|exact Hloop]. }
    split; [unfold script; now rewrite Hrun|].
    intros r k Hcore.
    assert (Hnan : px Y_hat r k = NaN)
      by now apply (run_outside_core X_tile W1_tile W2_tile W3_tile forward c).
    split; [exact Hnan|]. cbn. now rewrite Hnan.
  - intros Hy Hx. split; [unfold in_extent; lia|].
    unfold core, core_axis. destruct Hp as [Hpy Hpx].
    change (0 / 4) with 0.
    destruct (y (xtrapad c) + 1 <=? 0) eqn:E; bool_to_Z; [lia|reflexivity].
  - intros Hgen Hcov Hf Hpos Hpy Hpx.
    destruct (run_completes X_tile W1_tile W2_tile W3_tile forward c
                Hgen Hcov Hf Ha Hpy Hpx Hpos) as (Y_hat & Hrun).
    exists Y_hat. split; [unfold script; now rewrite Hrun|].
    intros r k Hcore.
    now apply (run_outside_core X_tile W1_tile W2_tile W3_tile forward c).
Qed.

Lemma no_check_before_export_witness :
  example_script (small_config (mkShape 8 8) (mkShape 8 8))
  = Exported (astype stand_in_cast
                (saved_mosaic (example_run (small_config (mkShape 8 8) (mkShape 8 8))))) /\
  px16 (astype stand_in_cast
          (saved_mosaic (example_run (small_config (mkShape 8 8) (mkShape 8 8))))) 0 0
  = stand_in_cast NaN.
Proof.
  set (c := small_config (mkShape 8 8) (mkShape 8 8)).
  assert (Ha : nonneg (ary_shape c)) by (split; cbn; lia).
  assert (Hp : nonneg (xtrapad c)) by (split; cbn; lia).
  assert (Hf : nonneg (final_shape c)) by (split; cbn; lia).
  assert (Hs : schedule c = (fst (schedule c), None)) by reflexivity.
  assert (Hloop : example_loop c (fst (schedule c))
                  = Saved (saved_mosaic (example_run c)))
    by (vm_compute; reflexivity).
  destruct (no_check_before_export (zeros 6 6) (zeros 60 60) (zeros 12 12) (zeros 6 6)
              stand_in_forward stand_in_cast c Ha Hp) as (H & _).
  destruct (H _ _ Hf Hs Hloop) as (Hexp & Hout).
  split; [exact Hexp|]. apply Hout. reflexivity.
Defined.

(** * Tile size and stride *)

Lemma schedule_rows_ext (c c' : config) (rows_ : list Z) (acc : list Shape) :
  final_shape c = final_shape c' -> stride c = stride c' ->
  schedule_rows c rows_ acc = schedule_rows c' rows_ acc.
Proof.
  intros Hf Hs. revert acc.
  induction rows_ as [|r rows_ IH]; intro acc; cbn; [reflexivity|].
  rewrite Hf, Hs. destruct (py_range _ _ _); [apply IH|reflexivity].
Qed.

(** C5, as stated, fails: a stride of 4 x 4 under tiles of 8 x 8 is not
    rejected.  The run reaches the export, and the cell (8, 8) has been
    assigned by four tiles. *)
Lemma mismatch_is_tolerated :
  stride (small_config (mkShape 8 8) (mkShape 4 4))
  <> ary_shape (small_config (mkShape 8 8) (mkShape 4 4)) /\
  write_count (small_config (mkShape 8 8) (mkShape 4 4))
    (fst (schedule (small_config (mkShape 8 8) (mkShape 4 4)))) 8 8 = 4%nat /\
  match example_run (small_config (mkShape 8 8) (mkShape 4 4)) with
  | Saved Y_hat => px Y_hat 8 8 = Fin 1
  | Failed _ _ => False
  end.
Proof.
  split; [discriminate|]. split; now vm_compute.
Qed.

Lemma stand_in_geometry : generator_geometry stand_in_forward.
Proof.
  intros x_crop w1_crop w2_crop w3_crop. eexists. split; [reflexivity|].
  now split.
Qed.

(** C5, amended: the script does not compare the stride with the tile
    size.  The schedule is the same whatever [ary_shape] is, and with
    positive strides the run always goes from the allocation into the loop
    over that schedule.  A mismatch is tolerated: with a generator of the
    expected geometry, a raster that covers the extent and a padding of at
    least one, the run reaches the export for every tile size. *)
Theorem schedule_ignores_ary_shape
  (X_tile W1_tile W2_tile W3_tile : ndarray)
  (forward : ndarray -> ndarray -> ndarray -> ndarray -> result ndarray)
  (c : config) (ary : Shape) :
  schedule (with_ary_shape c ary) = schedule c /\
  (nonneg (final_shape c) -> positive (stride c) ->
   exists steps,
     schedule (with_ary_shape c ary) = (steps, None) /\
     run X_tile W1_tile W2_tile W3_tile forward (with_ary_shape c ary) =
     tile_loop X_tile W1_tile W2_tile W3_tile forward (with_ary_shape c ary)
       steps (empty_mosaic c) []) /\
  (generator_geometry forward -> covers_extent c X_tile ->
   nonneg (final_shape c) -> positive (stride c) ->
   1 <= y (xtrapad c) -> 1 <= x (xtrapad c) -> nonneg ary ->
   exists Y_hat,
     run X_tile W1_tile W2_tile W3_tile forward (with_ary_shape c ary) = Saved Y_hat).
Proof.
  assert (Hsame : schedule (with_ary_shape c ary) = schedule c).
  { unfold schedule. cbn [with_ary_shape final_shape stride].
    destruct (py_range _ _ _); [|reflexivity].
    now apply schedule_rows_ext. }
  split; [exact Hsame|]. split.
  - intros [Hfy Hfx] Hpos.
    destruct (schedule_positive c Hpos) as (rows_ & cols_ & _ & _ & Hs).
    exists (origins rows_ cols_). rewrite Hsame. split; [exact Hs|].
    unfold run. rewrite Hsame, Hs. unfold np_full.
    cbn [with_ary_shape final_shape].
    destruct ((y (final_shape c) <? 0) || (x (final_shape c) <? 0)) eqn:E;
      bool_to_Z; [lia|reflexivity].
  - intros Hgen Hcov Hf Hpos Hpy Hpx Hary.
    now apply run_completes.
Qed.

Lemma schedule_ignores_ary_shape_witness :
  exists Y_hat,
    example_run (with_ary_shape (small_config (mkShape 8 8) (mkShape 4 4)) (mkShape 5 7))
    = Saved Y_hat.
Proof.
  unfold example_run. cbv zeta.
  refine (proj2 (proj2 (schedule_ignores_ary_shape _ _ _ _ _ _ _)) _ _ _ _ _ _ _).
  - exact stand_in_geometry.
  - split; cbn; lia.
  - split; cbn; lia.
  - split; cbn; lia.
  - cbn; lia.
  - cbn; lia.
  - split; cbn; lia.
Defined.

(** * Strides that are not positive *)

Lemma origins_nil_r (rows_ : list Z) : origins rows_ [] = [].
Proof. induction rows_ as [|r rows_ IH]; [reflexivity|exact IH]. Qed.

(** C6, as stated, fails: a negative stride raises nothing.  The schedule
    is empty and the run goes on to the export. *)
Lemma negative_stride_is_not_rejected :
  y (stride (small_config (mkShape 8 8) (mkShape (-8) 8))) <= 0 /\
  schedule (small_config (mkShape 8 8) (mkShape (-8) 8)) = ([], None) /\
  match example_run (small_config (mkShape 8 8) (mkShape (-8) 8)) with
  | Saved _ => True
  | Failed _ _ => False
  end.
Proof.
  split; [cbn; lia|]. split; [reflexivity|]. now vm_compute.
Qed.

(** C6, amended: a zero row stride, and a zero column stride under a
    positive row stride and a mosaic with at least one row, make [range]
    raise [ValueError] before any origin is appended, and the run ends
    there with no tile inferred.  A negative stride raises nothing: over
    a mosaic of non-negative shape the schedule is empty and the run
    exports the mosaic as allocated. *)
Theorem zero_stride_raises_before_any_tile
  (X_tile W1_tile W2_tile W3_tile : ndarray)
  (forward : ndarray -> ndarray -> ndarray -> ndarray -> result ndarray)
  (c : config) :
  (y (stride c) = 0 \/
   (x (stride c) = 0 /\ 0 < y (stride c) /\ 0 < y (final_shape c)) ->
   schedule c = ([], Some ValueError) /\
   run X_tile W1_tile W2_tile W3_tile forward c = Failed ValueError []) /\
  (nonneg (final_shape c) ->
   y (stride c) < 0 \/ (x (stride c) < 0 /\ y (stride c) <> 0) ->
   schedule c = ([], None) /\
   run X_tile W1_tile W2_tile W3_tile forward c = Saved (empty_mosaic c)).
Proof.
  split.
  - intro H.
    assert (Hs : schedule c = ([], Some ValueError)).
    { unfold schedule. destruct H as [H|(Hx & Hy & Hf)].
      - now rewrite H, py_range_zero.
      - destruct (py_range_positive (y (final_shape c)) _ Hy) as (rows_ & Hr & _ & Hin).
        rewrite Hr.
        rewrite (schedule_rows_raise c ValueError)
          by (rewrite Hx; apply py_range_zero).
        destruct rows_ as [|r rows_]; [|reflexivity].
        exfalso. apply (proj2 (Hin 0)). exists 0. lia. }
    split; [exact Hs|]. unfold run, np_full. rewrite Hs.
    now destruct ((y (final_shape c) <? 0) || (x (final_shape c) <? 0)).
  - intros [Hfy Hfx] H.
    assert (Hs : schedule c = ([], None)).
    { unfold schedule. destruct H as [H|[Hx Hy]].
      - now rewrite py_range_negative.
      - destruct (Z.lt_trichotomy (y (stride c)) 0) as [Hn|[Hz|Hpos]]; [|lia|].
        + now rewrite py_range_negative.
        + destruct (py_range_positive (y (final_shape c)) _ Hpos) as (rows_ & Hr & _).
          rewrite Hr, (schedule_rows_ok c []) by now apply py_range_negative.
          now rewrite origins_nil_r. }
    split; [exact Hs|]. unfold run, np_full. rewrite Hs.
    destruct ((y (final_shape c) <? 0) || (x (final_shape c) <? 0)) eqn:E;
      bool_to_Z; [lia|reflexivity].
Qed.

Lemma zero_stride_raises_before_any_tile_witness :
  example_run (small_config (mkShape 8 8) (mkShape 0 8)) = Failed ValueError [] /\
  example_run (small_config (mkShape 8 8) (mkShape 8 0)) = Failed ValueError [] /\
  example_run (small_config (mkShape 8 8) (mkShape 8 (-8)))
  = Saved (empty_mosaic (small_config (mkShape 8 8) (mkShape 8 (-8)))).
Proof.
  unfold example_run. cbv zeta. split; [|split].
  - apply zero_stride_raises_before_any_tile. left. reflexivity.
  - apply zero_stride_raises_before_any_tile. right. cbn. lia.
  - apply zero_stride_raises_before_any_tile.
    + split; cbn; lia.
    + right. cbn. lia.
Defined.

(** * The crop windows *)

(** C7: for every scheduled tile of a configuration with non-negative
    sizes, the window satisfies 0 <= y0 <= y1 <= final_shape.y // 4 and
    0 <= x0 <= x1 <= final_shape.x // 4, the extent of the source the
    script clamps to; it is never inverted. *)
Theorem window_within_source (c : config) (step : Shape) :
  nonneg (final_shape c) -> nonneg (ary_shape c) -> nonneg (xtrapad c) ->
  In step (fst (schedule c)) ->
  (0 <= y0 c step <= y1 c step /\ y1 c step <= y (final_shape c) / 4) /\
  (0 <= x0 c step <= x1 c step /\ x1 c step <= x (final_shape c) / 4).
Proof.
  intros Hf [Hay Hax] [Hpy Hpx] Hin.
  destruct (schedule_In c step Hf Hin)
    as ([Hsy Hsx] & (i & Hi & Hyi & Hylt) & (j & Hj & Hxj & Hxlt)).
  assert (0 <= y step) by nia. assert (0 <= x step) by nia.
  unfold y0, y1, x0, x1. split; div_lia.
Qed.

Lemma window_within_source_witness :
  0 <= y0 reference_config (mkShape 17000 0) <= y1 reference_config (mkShape 17000 0) /\
  y1 reference_config (mkShape 17000 0) <= 4500.
Proof.
  refine (proj1 (window_within_source reference_config (mkShape 17000 0) _ _ _ _)).
  - split; cbn; lia.
  - split; cbn; lia.
  - split; cbn; lia.
  - apply (nth_In (fst (schedule reference_config)) (mkShape 0 0) (n := 374)).
    vm_compute. lia.
Defined.

Lemma adjust_index_scale (ratio i len : Z) :
  0 < ratio ->
  adjust_index (i * ratio) (len * ratio) = adjust_index i len * ratio.
Proof.
  intro H. unfold adjust_index.
  destruct (i * ratio <? 0) eqn:E1; destruct (i <? 0) eqn:E2; bool_to_Z; nia.
Qed.

Lemma getitem_scale (ratio : Z) (a b : ndarray) (w v : window) :
  0 < ratio ->
  rows b = rows a * ratio -> cols b = cols a * ratio ->
  ys v = scale ratio (ys w) -> xs v = scale ratio (xs w) ->
  rows (getitem b v) = rows (getitem a w) * ratio /\
  cols (getitem b v) = cols (getitem a w) * ratio.
Proof.
  intros Hr Hrows Hcols Hys Hxs.
  unfold getitem, slice_len, slice_indices; cbn [rows cols fst snd].
  rewrite Hrows, Hcols, Hys, Hxs. unfold scale; cbn [fst snd].
  rewrite !adjust_index_scale by assumption. split; nia.
Qed.

(** C8: for every tile the subscripts of the four crops are the window of
    BEDMAP2 with both bounds multiplied by exactly 10 for REMA, by exactly 2
    for MEaSUREs and by 1 for the accumulation; nothing is rounded.  On
    rasters whose shapes stand in the same ratios the crops themselves have
    shapes in these ratios. *)
Theorem crops_cover_same_area (c : config) (step : Shape) :
  (ys (W1_window c step) = scale 10 (ys (X_window c step)) /\
   xs (W1_window c step) = scale 10 (xs (X_window c step))) /\
  (ys (W2_window c step) = scale 2 (ys (X_window c step)) /\
   xs (W2_window c step) = scale 2 (xs (X_window c step))) /\
  W3_window c step = X_window c step /\
  (forall X_tile W1_tile W2_tile : ndarray,
     rows W1_tile = rows X_tile * 10 -> cols W1_tile = cols X_tile * 10 ->
     rows W2_tile = rows X_tile * 2 -> cols W2_tile = cols X_tile * 2 ->
     (rows (getitem W1_tile (W1_window c step))
      = rows (getitem X_tile (X_window c step)) * 10 /\
      cols (getitem W1_tile (W1_window c step))
      = cols (getitem X_tile (X_window c step)) * 10) /\
     (rows (getitem W2_tile (W2_window c step))
      = rows (getitem X_tile (X_window c step)) * 2 /\
      cols (getitem W2_tile (W2_window c step))
      = cols (getitem X_tile (X_window c step)) * 2)).
Proof.
  split; [now split|]. split; [now split|]. split; [reflexivity|].
  intros X_tile W1_tile W2_tile H1 H2 H3 H4. split.
  - apply getitem_scale; try assumption; [lia|reflexivity|reflexivity].
  - apply getitem_scale; try assumption; [lia|reflexivity|reflexivity].
Qed.

Lemma crops_cover_same_area_witness :
  rows (getitem (zeros 45000 55000) (W1_window reference_config (mkShape 1000 1000)))
  = rows (getitem (zeros 4500 5500) (X_window reference_config (mkShape 1000 1000))) * 10.
Proof.
  destruct (crops_cover_same_area reference_config (mkShape 1000 1000))
    as (_ & _ & _ & H).
  apply (H (zeros 4500 5500) (zeros 45000 55000) (zeros 9000 11000));
    reflexivity.
Defined.

(** C9: with tiles of 100 x 100, a padding of 18 and a mosaic large enough
    for no clamping at the far edge, the crop of the source at ten times the
    resolution of BEDMAP2 for the tile at (400, 400) spans
    (100 / 4 + 2 * 18 + 2) * 10 = 630 source pixels along each axis. *)
Theorem finest_source_span (c : config) :
  ary_shape c = mkShape 100 100 -> xtrapad c = mkShape 18 18 ->
  144 <= y (final_shape c) / 4 -> 144 <= x (final_shape c) / 4 ->
  slice_len (ys (W1_window c (mkShape 400 400))) = (100 / 4 + 2 * 18 + 2) * 10 /\
  slice_len (xs (W1_window c (mkShape 400 400))) = (100 / 4 + 2 * 18 + 2) * 10 /\
  (100 / 4 + 2 * 18 + 2) * 10 = 630 /\
  (forall W1_tile : ndarray,
     1440 <= rows W1_tile -> 1440 <= cols W1_tile ->
     rows (getitem W1_tile (W1_window c (mkShape 400 400))) = 630 /\
     cols (getitem W1_tile (W1_window c (mkShape 400 400))) = 630).
Proof.
  intros Ha Hp Hy Hx.
  assert (Hy0 : y0 c (mkShape 400 400) = 81) by (unfold y0; now rewrite Hp).
  assert (Hx0 : x0 c (mkShape 400 400) = 81) by (unfold x0; now rewrite Hp).
  assert (Hy1 : y1 c (mkShape 400 400) = 144).
  { unfold y1. rewrite Hp, Ha. cbn [y]. change ((400 + 100) / 4 + 18 + 1) with 144. lia. }
  assert (Hx1 : x1 c (mkShape 400 400) = 144).
  { unfold x1. rewrite Hp, Ha. cbn [x]. change ((400 + 100) / 4 + 18 + 1) with 144. lia. }
  unfold W1_window, getitem, slice_len, slice_indices, adjust_index;
    cbn [ys xs fst snd rows cols].
  rewrite Hy0, Hx0, Hy1, Hx1.
  split; [reflexivity|]. split; [reflexivity|]. split; [reflexivity|].
  intros W1_tile Hr Hc.
  change (81 * 10 <? 0) with false. change (144 * 10 <? 0) with false. cbv iota.
  split; lia.
Qed.

Lemma finest_source_span_witness :
  slice_len (ys (W1_window (mkConfig (mkShape 1000 1000) (mkShape 100 100)
                                     (mkShape 100 100) (mkShape 18 18))
                           (mkShape 400 400))) = 630.
Proof.
  refine (proj1 (finest_source_span _ _ _ _ _)); try reflexivity; cbn; lia.
Defined.

(** * The frame of one write *)

Lemma writes_axis_footprint (final ary xtra i st : Z) :
  0 <= final -> 0 <= ary -> 0 <= xtra -> 0 <= st ->
  writes_axis final ary xtra i st = true ->
  in_range (st / 4 * 4, (st + ary) / 4 * 4) i = true.
Proof.
  intros Hf Ha Hx Hs H. apply writes_axis_iff in H; try assumption.
  unfold in_range; cbn [fst snd]. apply andb_true_iff.
  rewrite Z.leb_le, Z.ltb_lt. div_lia.
Qed.

Lemma footprint_nominal (ary i st : Z) :
  0 <= ary -> st mod 4 = 0 ->
  in_range (st / 4 * 4, (st + ary) / 4 * 4) i = true ->
  in_range (st, st + ary * 4) i = true.
Proof.
  unfold in_range; cbn [fst snd]. intros Ha Hs H.
  apply andb_true_iff in H. destruct H as [H1 H2]. bool_to_Z.
  apply andb_true_iff. rewrite Z.leb_le, Z.ltb_lt. div_lia.
Qed.

(** Two tiles of one axis, one stride apart or more, never take the same
    position when the tile size is the stride. *)
Lemma writes_axis_unique (final s xtra i j1 j2 : Z) :
  0 <= final -> 0 < s -> 0 <= xtra -> 0 <= j1 -> 0 <= j2 ->
  writes_axis final s xtra i (j1 * s) = true ->
  writes_axis final s xtra i (j2 * s) = true ->
  j1 = j2.
Proof.
  intros Hf Hs Hx H1 H2 W1 W2.
  assert (0 <= j1 * s) by nia. assert (0 <= j2 * s) by nia.
  apply writes_axis_iff in W1, W2; try lia.
  set (q := 4 * (i / 4) + 3).
  assert (j1 * s <= q < j1 * s + s).
  { subst q. remember (j1 * s) as st eqn:E. clear E. div_lia. }
  assert (j2 * s <= q < j2 * s + s).
  { subst q. remember (j2 * s) as st eqn:E. clear E. div_lia. }
  nia.
Qed.

(** C10, as stated, fails: the tile at (9, 9) of a mosaic cut into tiles of
    9 x 9 assigns the cell (8, 8), which lies outside its nominal rectangle
    [9, 45) x [9, 45), and the cell does not keep the value it had. *)
Lemma write_outside_nominal_rectangle :
  In (mkShape 9 9) (fst (schedule odd_config)) /\
  stride odd_config = ary_shape odd_config /\
  nominal odd_config (mkShape 9 9) 8 8 = false /\
  writes odd_config (mkShape 9 9) 8 8 = true /\
  match example_tile odd_config (empty_mosaic odd_config) (mkShape 9 9) with
  | Ok Y_hat => px Y_hat 8 8 <> px (empty_mosaic odd_config) 8 8
  | Raise _ => False
  end.
Proof.
  split; [do 6 right; now left|]. repeat split. vm_compute. discriminate.
Qed.

(** C10, amended: the write of a scheduled tile assigns only cells of the
    rectangle of whole source pixels under the tile,
    [4 (step.y // 4), 4 ((step.y + ary_shape.y) // 4)) by the same in x, cut
    to the mosaic; this lies inside the nominal rectangle when the origin is
    a multiple of four on both axes.  Every other cell keeps the value it
    had before the write, and with tile size equal to the stride no other
    scheduled tile assigns a cell that this tile assigns. *)
Theorem tile_write_frame
  (X_tile W1_tile W2_tile W3_tile : ndarray)
  (forward : ndarray -> ndarray -> ndarray -> ndarray -> result ndarray)
  (c : config) (step : Shape) (Y_hat Y_hat' : ndarray) :
  nonneg (final_shape c) -> nonneg (ary_shape c) -> nonneg (xtrapad c) ->
  In step (fst (schedule c)) ->
  shaped c Y_hat ->
  tile X_tile W1_tile W2_tile W3_tile forward c Y_hat step = Ok Y_hat' ->
  (forall r k, writes c step r k = false -> px Y_hat' r k = px Y_hat r k) /\
  (forall r k, writes c step r k = true ->
     footprint c step r k = true /\ in_extent c r k) /\
  (y step mod 4 = 0 -> x step mod 4 = 0 ->
   forall r k, writes c step r k = true -> nominal c step r k = true) /\
  (stride c = ary_shape c ->
   forall step', In step' (fst (schedule c)) -> step' <> step ->
   forall r k, writes c step r k = true -> writes c step' r k = false).
Proof.
  intros Hf Ha Hp Hin Hsh Htile.
  pose proof (schedule_In_nonneg c step Hf Hin) as [Hsy Hsx].
  destruct Hf as [Hfy Hfx], Ha as [Hay Hax], Hp as [Hpy Hpx].
  assert (Hfoot : forall r k, writes c step r k = true ->
                    footprint c step r k = true /\ in_extent c r k).
  { intros r k Hw. rewrite writes_split in Hw. apply andb_true_iff in Hw.
    destruct Hw as [W1 W2]. split.
    - unfold footprint. apply andb_true_iff.
      split;
        [apply (writes_axis_footprint (y (final_shape c)) _ (y (xtrapad c)))
        |apply (writes_axis_footprint (x (final_shape c)) _ (x (xtrapad c)))];
        assumption.
    - apply writes_axis_core in W1, W2; try assumption.
      apply core_axis_extent in W1, W2; try assumption. now split. }
  split; [|split; [|split]].
  - now apply (tile_frame X_tile W1_tile W2_tile W3_tile forward c Y_hat Y_hat' step).
  - exact Hfoot.
  - intros Hy4 Hx4 r k Hw. apply Hfoot in Hw. destruct Hw as [Hw _].
    unfold footprint in Hw. apply andb_true_iff in Hw. destruct Hw as [F1 F2].
    unfold nominal. apply andb_true_iff.
    split; apply footprint_nominal; assumption.
  - intros Heq step' Hin' Hneq r k Hw.
    destruct (writes c step' r k) eqn:Hw'; [|reflexivity].
    exfalso. apply Hneq.
    destruct (schedule_In c step (conj Hfy Hfx) Hin)
      as ([Hpy' Hpx'] & (i & Hi & Hyi & _) & (j & Hj & Hxj & _)).
    destruct (schedule_In c step' (conj Hfy Hfx) Hin')
      as (_ & (i' & Hi' & Hyi' & _) & (j' & Hj' & Hxj' & _)).
    rewrite writes_split, <- Heq in Hw, Hw'.
    apply andb_true_iff in Hw, Hw'.
    destruct Hw as [W1 W2], Hw' as [W1' W2'].
    rewrite Hyi in W1. rewrite Hxj in W2. rewrite Hyi' in W1'. rewrite Hxj' in W2'.
    assert (i' = i)
      by (apply (writes_axis_unique (y (final_shape c)) (y (stride c))
                   (y (xtrapad c)) r); assumption).
    assert (j' = j)
      by (apply (writes_axis_unique (x (final_shape c)) (x (stride c))
                   (x (xtrapad c)) k); assumption).
    destruct step as [sy sx], step' as [sy' sx']; cbn in *. congruence.
Qed.

Lemma tile_write_frame_witness :
  px (ok_array (example_tile odd_config (empty_mosaic odd_config) (mkShape 9 9))) 7 8
  = NaN.
Proof.
  set (c := odd_config).
  assert (Hf : nonneg (final_shape c)) by (split; cbn; lia).
  assert (Ha : nonneg (ary_shape c)) by (split; cbn; lia).
  assert (Hp : nonneg (xtrapad c)) by (split; cbn; lia).
  assert (Hin : In (mkShape 9 9) (fst (schedule c))) by (do 6 right; now left).
  assert (Hsh : shaped c (empty_mosaic c)) by (split; reflexivity).
  assert (Ht : example_tile c (empty_mosaic c) (mkShape 9 9)
               = Ok (ok_array (example_tile c (empty_mosaic c) (mkShape 9 9))))
    by (vm_compute; reflexivity).
  destruct (tile_write_frame _ _ _ _ _ c (mkShape 9 9) _ _ Hf Ha Hp Hin Hsh Ht)
    as (H & _).
  apply H. reflexivity.
Defined.

(** * The schedule as a whole *)

Lemma multiples_sorted (s : Z) (n a : nat) :
  0 < s ->
  StronglySorted Z.lt (map (fun i => 0 + Z.of_nat i * s) (seq a n)).
Proof.
  intro Hs. revert a. induction n as [|n IH]; intro a; cbn; constructor.
  - apply IH.
  - apply Forall_forall. intros v Hv. apply in_map_iff in Hv.
    destruct Hv as (i & <- & Hi). apply in_seq in Hi. nia.
Qed.

Lemma py_range_sorted (final s : Z) (l : list Z) :
  0 < s -> py_range 0 final s = Ok l -> StronglySorted Z.lt l.
Proof.
  intros Hs H. unfold py_range in H.
  destruct (s =? 0) eqn:E; [discriminate|]. injection H as <-.
  now apply multiples_sorted.
Qed.

Lemma range_len_ceil (final s : Z) :
  0 <= final -> 0 < s -> range_len 0 final s = ceil_div final s.
Proof.
  intros Hf Hs. unfold range_len, ceil_div.
  destruct (0 <? s) eqn:E; bool_to_Z; [|lia].
  destruct (0 <? final) eqn:E'; bool_to_Z.
  - rewrite Z.sub_0_r.
    assert (H : - final = (- ((final - 1) / s + 1)) * s + (s - 1 - (final - 1) mod s)).
    { pose proof (Z.div_mod (final - 1) s). lia. }
    pose proof (Z.mod_pos_bound (final - 1) s Hs).
    rewrite H, Z.div_add_l by lia.
    rewrite (Z.div_small (s - 1 - (final - 1) mod s)) by lia. lia.
  - assert (final = 0) by lia. subst. reflexivity.
Qed.

Lemma py_range_length (final s : Z) (l : list Z) :
  0 <= final -> 0 < s -> py_range 0 final s = Ok l ->
  Z.of_nat (length l) = ceil_div final s.
Proof.
  intros Hf Hs H. unfold py_range in H.
  destruct (s =? 0) eqn:E; [discriminate|]. injection H as <-.
  rewrite length_map, length_seq, <- range_len_ceil by assumption.
  apply Z2Nat.id. unfold range_len.
  destruct (0 <? s) eqn:E1; bool_to_Z; [|lia].
  destruct (0 <? final) eqn:E2; bool_to_Z; [|lia].
  assert (0 <= (final - 0 - 1) / s); [|lia].
  apply Z.div_pos; lia.
Qed.

Lemma origins_length (rows_ cols_ : list Z) :
  length (origins rows_ cols_) = (length rows_ * length cols_)%nat.
Proof.
  unfold origins. induction rows_ as [|r rows_ IH]; [reflexivity|].
  cbn [flat_map]. rewrite length_app, length_map, IH. reflexivity.
Qed.

Lemma origins_NoDup (rows_ cols_ : list Z) :
  NoDup rows_ -> NoDup cols_ -> NoDup (origins rows_ cols_).
Proof.
  intros Hr Hc. induction Hr as [|r rows_ Hnotin Hr IH]; [constructor|].
  change (origins (r :: rows_) cols_)
    with (map (fun x_step => mkShape r x_step) cols_ ++ origins rows_ cols_).
  apply NoDup_app; [|exact IH|].
  - apply Injective_map_NoDup; [|assumption]. intros a b H. now injection H.
  - intros step H1 H2. apply in_map_iff in H1. destruct H1 as (k & <- & _).
    apply in_origins in H2. now destruct H2.
Qed.

Lemma StronglySorted_app {A : Type} (R : A -> A -> Prop) (l1 l2 : list A) :
  StronglySorted R l1 -> StronglySorted R l2 ->
  (forall a b, In a l1 -> In b l2 -> R a b) ->
  StronglySorted R (l1 ++ l2).
Proof.
  intros H1 H2 H. induction H1 as [|a l1 H1 IH Hall]; [exact H2|].
  cbn. constructor.
  - apply IH. intros a' b Ha Hb. apply H; [now right|assumption].
  - apply Forall_app. split; [assumption|].
    apply Forall_forall. intros b Hb. apply H; [now left|assumption].
Qed.

Lemma origins_sorted (rows_ cols_ : list Z) :
  StronglySorted Z.lt rows_ -> StronglySorted Z.lt cols_ ->
  StronglySorted Shape_lt (origins rows_ cols_).
Proof.
  intros Hr Hc. induction Hr as [|r rows_ Hr IH Hall]; [constructor|].
  change (origins (r :: rows_) cols_)
    with (map (fun x_step => mkShape r x_step) cols_ ++ origins rows_ cols_).
  apply StronglySorted_app; [|exact IH|].
  - clear IH Hall. induction Hc as [|k cols_ Hc IHc Hk]; cbn; constructor.
    + exact IHc.
    + apply Forall_forall. intros step Hin. apply in_map_iff in Hin.
      destruct Hin as (k' & <- & Hk'). right. cbn. split; [reflexivity|].
      rewrite Forall_forall in Hk. now apply Hk.
  - intros a b Ha Hb. apply in_map_iff in Ha. destruct Ha as (k & <- & _).
    apply in_origins in Hb. destruct Hb as [Hb _]. left. cbn.
    rewrite Forall_forall in Hall. now apply Hall.
Qed.

Lemma multiple_iff (final s v : Z) :
  0 < s ->
  (exists i, 0 <= i /\ v = i * s /\ v < final) <-> (0 <= v < final /\ v mod s = 0).
Proof.
  intro Hs. split.
  - intros (i & Hi & -> & Hlt). split; [nia|]. now apply Z.mod_mul; lia.
  - intros [Hv Hm]. exists (v / s). split; [apply Z.div_pos; lia|].
    split; [|lia]. pose proof (Z.div_mod v s). lia.
Qed.

(** X1: for positive strides the scheduler ends without an exception and
    yields, without duplicates, exactly the origins inside the mosaic whose
    row is a multiple of the row stride and whose column is a multiple of
    the column stride. *)
Theorem schedule_exact (c : config) :
  positive (stride c) ->
  exists steps,
    schedule c = (steps, None) /\ NoDup steps /\
    forall step, In step steps <->
      (0 <= y step < y (final_shape c) /\ y step mod y (stride c) = 0) /\
      (0 <= x step < x (final_shape c) /\ x step mod x (stride c) = 0).
Proof.
  intros [Hy Hx].
  destruct (py_range_positive (y (final_shape c)) _ Hy) as (rows_ & Hr & Hndr & Hinr).
  destruct (py_range_positive (x (final_shape c)) _ Hx) as (cols_ & Hc & Hndc & Hinc).
  exists (origins rows_ cols_). split; [|split].
  - unfold schedule. rewrite Hr. now rewrite (schedule_rows_ok c cols_).
  - now apply origins_NoDup.
  - intro step. rewrite in_origins, Hinr, Hinc, !multiple_iff by assumption.
    reflexivity.
Qed.

Lemma schedule_exact_witness :
  exists steps,
    schedule reference_config = (steps, None) /\
    In (mkShape 17000 21000) steps /\ ~ In (mkShape 18000 0) steps.
Proof.
  destruct (schedule_exact reference_config) as (steps & Hs & _ & Hin);
    [split; cbn; lia|].
  exists steps. split; [exact Hs|]. split.
  - apply Hin. cbn. repeat split; lia.
  - intro H. apply Hin in H. cbn in H. lia.
Defined.

(** X2: over a mosaic of non-negative shape and for positive strides the
    number of scheduled tiles is ceil(final_shape.y / stride.y) times
    ceil(final_shape.x / stride.x). *)
Theorem schedule_length (c : config) (steps : list Shape) :
  nonneg (final_shape c) -> positive (stride c) ->
  schedule c = (steps, None) ->
  Z.of_nat (length steps) =
  ceil_div (y (final_shape c)) (y (stride c)) *
  ceil_div (x (final_shape c)) (x (stride c)).
Proof.
  intros [Hfy Hfx] Hpos Hs.
  destruct (schedule_positive c Hpos) as (rows_ & cols_ & Hr & Hc & Hs').
  rewrite Hs in Hs'. injection Hs' as ->. destruct Hpos as [Hy Hx].
  rewrite origins_length, Nat2Z.inj_mul.
  now rewrite (py_range_length _ _ _ Hfy Hy Hr), (py_range_length _ _ _ Hfx Hx Hc).
Qed.

Lemma schedule_length_witness :
  length (fst (schedule reference_config)) = 396%nat /\
  length (fst (schedule odd_config)) = 25%nat.
Proof.
  split; apply Nat2Z.inj.
  - rewrite (schedule_length reference_config);
      [reflexivity|split; cbn; lia|split; cbn; lia|now vm_compute].
  - rewrite (schedule_length odd_config);
      [reflexivity|split; cbn; lia|split; cbn; lia|now vm_compute].
Defined.

(** X3: for positive strides the tiles are scheduled in row-major order:
    every origin comes before all origins of a later row, and before the
    origins of its own row that lie further along it. *)
Theorem schedule_row_major (c : config) (steps : list Shape) :
  positive (stride c) ->
  schedule c = (steps, None) ->
  StronglySorted Shape_lt steps.
Proof.
  intros Hpos Hs.
  destruct (schedule_positive c Hpos) as (rows_ & cols_ & Hr & Hc & Hs').
  rewrite Hs in Hs'. injection Hs' as ->. destruct Hpos as [Hy Hx].
  apply origins_sorted;
    [apply (py_range_sorted (y (final_shape c)) (y (stride c)))
    |apply (py_range_sorted (x (final_shape c)) (x (stride c)))]; assumption.
Qed.

Lemma schedule_row_major_witness :
  StronglySorted Shape_lt (fst (schedule odd_config)).
Proof.
  apply (schedule_row_major odd_config); [split; cbn; lia|reflexivity].
Defined.

Lemma stride_cell_axis_count (final s i : Z) (l : list Z) :
  0 < s -> py_range 0 final s = Ok l -> 0 <= i < final ->
  length (filter (fun v => in_range (v, v + s) i) l) = 1%nat.
Proof.
  intros Hs Hl Hi.
  destruct (py_range_positive final s Hs) as (l' & Hl' & Hnd & Hin).
  rewrite Hl in Hl'. injection Hl' as <-.
  assert (Hlo : i / s * s <= i) by (rewrite Z.mul_comm; apply Z.mul_div_le; lia).
  assert (Hhi : i < i / s * s + s) by (pose proof (Z.mul_succ_div_gt i s Hs); lia).
  assert (Hq : 0 <= i / s) by (apply Z.div_pos; lia).
  remember (i / s) as q eqn:Eq. clear Eq.
  apply (filter_unique _ _ (q * s) Hnd).
  - apply Hin. exists q. lia.
  - unfold in_range; cbn [fst snd]. apply andb_true_iff.
    rewrite Z.leb_le, Z.ltb_lt. lia.
  - intros b Hb Hcell. apply Hin in Hb. destruct Hb as (j & Hj & -> & _).
    unfold in_range in Hcell; cbn [fst snd] in Hcell. bool_to_Z.
    f_equal. nia.
Qed.

(** X4: for positive strides the cells of the stride grid that start at
    the scheduled origins cover the mosaic without gap or overlap: every
    cell of the mosaic lies in the stride cell of exactly one scheduled
    tile, also when the shape of the mosaic is no multiple of the stride. *)
Theorem stride_cells_partition (c : config) (steps : list Shape) (r k : Z) :
  positive (stride c) ->
  schedule c = (steps, None) ->
  in_extent c r k ->
  length (filter (fun step => stride_cell c step r k) steps) = 1%nat.
Proof.
  intros Hpos Hs [Hr Hk].
  destruct (schedule_positive c Hpos) as (rows_ & cols_ & Hrows & Hcols & Hs').
  rewrite Hs in Hs'. injection Hs' as ->. destruct Hpos as [Hy Hx].
  unfold stride_cell.
  rewrite (count_origins (fun v => in_range (v, v + y (stride c)) r)
                         (fun v => in_range (v, v + x (stride c)) k)).
  rewrite (stride_cell_axis_count (y (final_shape c))),
          (stride_cell_axis_count (x (final_shape c))) by assumption.
  reflexivity.
Qed.

Lemma stride_cells_partition_witness :
  length (filter (fun step => stride_cell odd_config step 39 0)
                 (fst (schedule odd_config))) = 1%nat.
Proof.
  apply stride_cells_partition;
    [split; cbn; lia|reflexivity|split; cbn; lia].
Defined.

(** * The size of the crops *)

Lemma slice_len_le (lo hi n b : Z) :
  0 <= lo -> 0 <= hi -> hi - lo <= b -> 0 <= b ->
  slice_len (slice_indices (lo, hi) n) <= b.
Proof.
  intros Hlo Hhi Hb Hb0.
  unfold slice_len, slice_indices, adjust_index; cbn [fst snd].
  destruct (lo <? 0) eqn:E1; destruct (hi <? 0) eqn:E2; bool_to_Z; lia.
Qed.

Lemma window_axis_bound (final ary xtra st : Z) :
  0 <= final -> 0 <= ary -> 0 <= xtra -> 0 <= st ->
  0 <= lo_axis xtra st /\ 0 <= hi_axis final ary xtra st /\
  hi_axis final ary xtra st - lo_axis xtra st <= crop_bound ary xtra /\
  0 <= crop_bound ary xtra.
Proof.
  intros Hf Ha Hx Hs. unfold lo_axis, hi_axis, crop_bound. div_lia.
Qed.

(** X5: for non-negative sizes and an origin with non-negative
    coordinates, the crop of BEDMAP2 handed to the generator has at most
    ceil(ary_shape / 4) + 2 xtrapad + 2 pixels along each axis, the crop of
    REMA at most ten times and the crop of MEaSUREs at most twice as many,
    whatever the shapes of the mosaic and of the rasters are. *)
Theorem crop_size_bounded (c : config) (step : Shape)
  (X_tile W1_tile W2_tile : ndarray) :
  nonneg (final_shape c) -> nonneg (ary_shape c) -> nonneg (xtrapad c) ->
  nonneg step ->
  (rows (getitem X_tile (X_window c step))
     <= crop_bound (y (ary_shape c)) (y (xtrapad c)) /\
   cols (getitem X_tile (X_window c step))
     <= crop_bound (x (ary_shape c)) (x (xtrapad c))) /\
  (rows (getitem W1_tile (W1_window c step))
     <= 10 * crop_bound (y (ary_shape c)) (y (xtrapad c)) /\
   cols (getitem W1_tile (W1_window c step))
     <= 10 * crop_bound (x (ary_shape c)) (x (xtrapad c))) /\
  (rows (getitem W2_tile (W2_window c step))
     <= 2 * crop_bound (y (ary_shape c)) (y (xtrapad c)) /\
   cols (getitem W2_tile (W2_window c step))
     <= 2 * crop_bound (x (ary_shape c)) (x (xtrapad c))).
Proof.
  intros [Hfy Hfx] [Hay Hax] [Hpy Hpx] [Hsy Hsx].
  pose proof (window_axis_bound _ _ _ _ Hfy Hay Hpy Hsy) as (Y0 & Y1 & Yb & Yb0).
  pose proof (window_axis_bound _ _ _ _ Hfx Hax Hpx Hsx) as (X0 & X1 & Xb & Xb0).
  change (lo_axis (y (xtrapad c)) (y step)) with (y0 c step) in *.
  change (hi_axis (y (final_shape c)) (y (ary_shape c)) (y (xtrapad c)) (y step))
    with (y1 c step) in *.
  change (lo_axis (x (xtrapad c)) (x step)) with (x0 c step) in *.
  change (hi_axis (x (final_shape c)) (x (ary_shape c)) (x (xtrapad c)) (x step))
    with (x1 c step) in *.
  unfold getitem, X_window, W1_window, W2_window; cbn [rows cols ys xs].
  repeat apply conj; apply slice_len_le; lia.
Qed.

Lemma crop_size_bounded_witness :
  rows (getitem (zeros 4500 5500) (X_window reference_config (mkShape 1000 1000)))
  <= 288.
Proof.
  refine (proj1 (proj1 (crop_size_bounded reference_config (mkShape 1000 1000)
                          (zeros 4500 5500) (zeros 0 0) (zeros 0 0) _ _ _ _)));
    split; cbn; lia.
Defined.

(** * Tiles away from the edges *)

Lemma unclamped_axis_slice (final ary xtra st : Z) :
  0 <= ary -> 0 <= xtra ->
  unclamped_axis final ary xtra st ->
  slice_indices (slice_axis final ary xtra st) final = (st, st + ary) /\
  hi_axis final ary xtra st - lo_axis xtra st = ary / 4 + 2 * xtra + 2.
Proof.
  intros Ha Hx (Hs4 & Ha4 & Hlo & Hhi).
  assert (E0 : lo_axis xtra st = st / 4 - xtra - 1) by (unfold lo_axis; lia).
  assert (E1 : hi_axis final ary xtra st = (st + ary) / 4 + xtra + 1)
    by (unfold hi_axis; lia).
  unfold slice_indices, slice_axis, adjust_index; cbn [fst snd].
  rewrite E0, E1.
  assert (Hst : (st / 4 - xtra - 1 + xtra + 1) * 4 = st) by div_lia.
  assert (Hen : ((st + ary) / 4 + xtra + 1 - xtra - 1) * 4 = st + ary) by div_lia.
  assert (Hf : st + ary <= final) by div_lia.
  assert (H0 : 0 <= st) by div_lia.
  rewrite Hst, Hen. split; [|div_lia].
  destruct (st <? 0) eqn:E2; destruct (st + ary <? 0) eqn:E3; bool_to_Z;
    f_equal; lia.
Qed.

(** X6: a tile that no clamping touches, with origin and size in whole
    source pixels, writes exactly the rectangle
    [step.y, step.y + ary_shape.y) x [step.x, step.x + ary_shape.x) of the
    mosaic, and its window holds ary_shape / 4 + 2 xtrapad + 2 source
    pixels along each axis. *)
Theorem unclamped_tile_writes_its_cell (c : config) (step : Shape) :
  nonneg (ary_shape c) -> nonneg (xtrapad c) ->
  unclamped c step ->
  (forall r k,
     writes c step r k =
     in_range (y step, y step + y (ary_shape c)) r &&
     in_range (x step, x step + x (ary_shape c)) k) /\
  y1 c step - y0 c step = y (ary_shape c) / 4 + 2 * y (xtrapad c) + 2 /\
  x1 c step - x0 c step = x (ary_shape c) / 4 + 2 * x (xtrapad c) + 2.
Proof.
  intros [Hay Hax] [Hpy Hpx] [Hy Hx].
  destruct (unclamped_axis_slice _ _ _ _ Hay Hpy Hy) as [Ey Ely].
  destruct (unclamped_axis_slice _ _ _ _ Hax Hpx Hx) as [Ex Elx].
  split; [|split; assumption].
  intros r k. unfold writes, written_rows, written_cols.
  now rewrite y_slice_axis, x_slice_axis, Ey, Ex.
Qed.

Lemma unclamped_tile_writes_its_cell_witness :
  writes reference_config (mkShape 1000 2000) 1999 2000 = true /\
  writes reference_config (mkShape 1000 2000) 2000 2000 = false.
Proof.
  assert (H : unclamped reference_config (mkShape 1000 2000))
    by (split; repeat split; cbn; lia).
  destruct (unclamped_tile_writes_its_cell reference_config (mkShape 1000 2000))
    as (Hw & _); [split; cbn; lia|split; cbn; lia|exact H|].
  split; rewrite Hw; reflexivity.
Defined.

(** * What the mosaic holds *)

Lemma filter_single {A : Type} (P : A -> bool) (l : list A) (a b : A) :
  length (filter P l) = 1%nat ->
  In a l -> P a = true -> In b l -> P b = true -> a = b.
Proof.
  intros Hlen Ha Pa Hb Pb.
  assert (Ha' : In a (filter P l)) by (apply filter_In; now split).
  assert (Hb' : In b (filter P l)) by (apply filter_In; now split).
  destruct (filter P l) as [|z [|z' l']]; try discriminate.
  destruct Ha' as [<-|[]], Hb' as [<-|[]]. reflexivity.
Qed.

Lemma filter_length_perm {A : Type} (P : A -> bool) (l l' : list A) :
  Permutation l l' -> length (filter P l) = length (filter P l').
Proof.
  intro H. induction H as [|a l l' H IH|a b l|l l' l'' H1 IH1 H2 IH2]; cbn.
  - reflexivity.
  - destruct (P a); cbn; congruence.
  - destruct (P a), (P b); reflexivity.
  - congruence.
Qed.

Section Stitch.

Variables X_tile W1_tile W2_tile W3_tile : ndarray.
Variable forward : ndarray -> ndarray -> ndarray -> ndarray -> result ndarray.

Local Abbreviation Y_pred' := (Y_pred X_tile W1_tile W2_tile W3_tile forward).
Local Abbreviation tile' := (tile X_tile W1_tile W2_tile W3_tile forward).
Local Abbreviation tile_loop' := (tile_loop X_tile W1_tile W2_tile W3_tile forward).
Local Abbreviation run' := (run X_tile W1_tile W2_tile W3_tile forward).
Local Abbreviation stitched_value' :=
  (stitched_value X_tile W1_tile W2_tile W3_tile forward).

Lemma tile_value (c : config) (Y_hat Y_hat' : ndarray) (step : Shape) (r k : Z) :
  shaped c Y_hat ->
  tile' c Y_hat step = Ok Y_hat' ->
  writes c step r k = true ->
  px Y_hat' r k = stitched_value' c step r k.
Proof.
  intros [Hr Hc] H Hw. unfold tile, bind in H. unfold stitched_value.
  destruct (Y_pred' c step) as [pred|e]; [|discriminate].
  unfold setitem in H. cbn [Y_hat_window ys xs] in H. rewrite Hr, Hc in H.
  destruct (broadcasts _ _ && broadcasts _ _); [|discriminate].
  injection H as <-. cbn [px].
  unfold writes, written_rows, written_cols in Hw. rewrite Hw. reflexivity.
Qed.

Lemma tile_loop_value (c : config) (steps : list Shape) (r k : Z) :
  forall (Y_hat Y_hat' : ndarray) (inferred : list Shape),
  shaped c Y_hat ->
  tile_loop' c steps Y_hat inferred = Saved Y_hat' ->
  write_count c steps r k = 1%nat ->
  exists step,
    In step steps /\ writes c step r k = true /\
    px Y_hat' r k = stitched_value' c step r k.
Proof.
  induction steps as [|step steps IH]; intros Y_hat Y_hat' inferred Hsh H Hcount.
  - discriminate.
  - cbn in H. destruct (tile' c Y_hat step) as [Y1|e] eqn:E; [|discriminate].
    destruct (tile_frame X_tile W1_tile W2_tile W3_tile forward c Y_hat Y1 step Hsh E) as [Hsh1 _].
    unfold write_count in Hcount. cbn in Hcount.
    destruct (writes c step r k) eqn:Ew.
    + exists step. split; [now left|]. split; [assumption|].
      destruct (tile_loop_frame X_tile W1_tile W2_tile W3_tile forward c steps Y1 Y_hat' _ Hsh1 H) as [_ Hpx].
      rewrite Hpx by (unfold write_count; cbn in Hcount; lia).
      now apply (tile_value c Y_hat).
    + destruct (IH Y1 Y_hat' _ Hsh1 H Hcount) as (s & Hin & Hw & Hv).
      exists s. split; [now right|]. now split.
Qed.

(** One axis of the alignment: a position taken by the write of a tile
    comes from the position of the raw prediction that lies [lo + 1] source
    pixels, four cells each, before it. *)
Lemma axis_alignment (final ary xtra st n i : Z) :
  0 <= final -> 0 <= ary -> 1 <= xtra -> 0 <= st < final -> final / 4 <= n ->
  writes_axis final ary xtra i st = true ->
  let m := Z.max 0 ((slice_len (slice_indices
                      (lo_axis xtra st, hi_axis final ary xtra st) n) - 2) * 4) in
  let tr := slice_indices (xtra * 4, - xtra * 4) m in
  fst tr + bcast_index (slice_len tr)
             (i - fst (slice_indices (slice_axis final ary xtra st) final))
  = i - 4 * (lo_axis xtra st + 1).
Proof.
  intros Hf Ha Hx Hs Hn Hw. cbv zeta.
  assert (Hlo : 0 <= lo_axis xtra st <= final / 4) by (unfold lo_axis; div_lia).
  assert (Hhi : lo_axis xtra st <= hi_axis final ary xtra st <= final / 4)
    by (unfold lo_axis, hi_axis; div_lia).
  apply writes_axis_iff in Hw; try lia.
  assert (Hlo' : lo_axis xtra st + xtra + 1 = Z.max (xtra + 1) (st / 4))
    by (unfold lo_axis; lia).
  assert (Hhi' : hi_axis final ary xtra st - xtra - 1
                 = Z.min (final / 4 - xtra - 1) ((st + ary) / 4))
    by (unfold hi_axis; lia).
  assert (Hi : 4 * (lo_axis xtra st + xtra + 1) <= i < final) by div_lia.
  assert (Hgap : lo_axis xtra st + xtra + 1 < hi_axis final ary xtra st - xtra - 1)
    by lia.
  rewrite (slice_len_inside (lo_axis xtra st) (hi_axis final ary xtra st) n) by lia.
  rewrite trim_len by lia.
  unfold slice_indices, slice_axis, adjust_index, bcast_index; cbn [fst snd].
  remember (lo_axis xtra st) as lo eqn:Elo.
  remember (hi_axis final ary xtra st) as hi eqn:Ehi.
  clear Elo Ehi Hlo' Hhi' Hw.
  destruct (xtra * 4 <? 0) eqn:E1; destruct ((lo + xtra + 1) * 4 <? 0) eqn:E2;
    destruct (Z.max 0 (Z.max 0 ((hi - lo - 2) * 4) - 8 * xtra) =? 1) eqn:E3;
    bool_to_Z; lia.
Qed.


(** X8: under the same conditions and with the tile size equal to the
    stride, every cell (r, k) of the core of the float32 mosaic that the
    loop over the schedule ends with, before the export casts it, holds the
    cell (r - 4 (y0 + 1), k - 4 (x0 + 1)) of the raw prediction of the one
    scheduled tile that writes it, [y0] and [x0] being the near bounds of
    the window of that tile: the mosaic is the predictions laid side by
    side, each at the place of its window less one source pixel. *)
Theorem mosaic_holds_predictions
  (c : config) (steps : list Shape) (Y_hat : ndarray) (r k : Z) :
  generator_geometry forward -> covers_extent c X_tile ->
  nonneg (final_shape c) ->
  1 <= y (xtrapad c) -> 1 <= x (xtrapad c) ->
  stride c = ary_shape c -> positive (stride c) ->
  schedule c = (steps, None) ->
  tile_loop' c steps (empty_mosaic c) [] = Saved Y_hat ->
  core c r k = true ->
  exists step pred,
    In step steps /\ writes c step r k = true /\
    Y_pred' c step = Ok pred /\
    px Y_hat r k = px pred (r - 4 * (y0 c step + 1)) (k - 4 * (x0 c step + 1)).
Proof.
  intros Hgen [Hcy Hcx] Hf Hpy Hpx Heq Hpos Hs Hloop Hcore.
  assert (Hcount : write_count c steps r k = 1%nat).
  { assert (Hp : nonneg (xtrapad c)) by (split; lia).
    rewrite (write_count_core c steps r k Heq Hpos Hf Hp Hs).
    now rewrite Hcore. }
  assert (Hsh : shaped c (empty_mosaic c)) by (split; reflexivity).
  destruct (tile_loop_value c steps r k _ _ _ Hsh Hloop Hcount)
    as (step & Hin & Hw & Hv).
  assert (Hin' : In step (fst (schedule c))) by now rewrite Hs.
  destruct (schedule_In c step Hf Hin')
    as (_ & (i & Hi & Hyi & Hylt) & (j & Hj & Hxj & Hxlt)).
  destruct Hpos as [Hsy Hsx].
  assert (0 <= y step) by nia. assert (0 <= x step) by nia.
  assert (Hay : 0 <= y (ary_shape c)) by (rewrite <- Heq; lia).
  assert (Hax : 0 <= x (ary_shape c)) by (rewrite <- Heq; lia).
  destruct Hf as [Hfy Hfx].
  unfold stitched_value in Hv. unfold Y_pred in *.
  destruct (Hgen (getitem X_tile (X_window c step))
                 (getitem W1_tile (W1_window c step))
                 (getitem W2_tile (W2_window c step))
                 (getitem W3_tile (W3_window c step))) as (pred & Hpred & Hpr & Hpc).
  rewrite Hpred in Hv. exists step, pred.
  split; [assumption|]. split; [assumption|]. split; [assumption|].
  rewrite Hv. rewrite writes_split in Hw. apply andb_true_iff in Hw.
  destruct Hw as [Wy Wx].
  pose proof (axis_alignment _ _ _ _ (rows X_tile) r Hfy Hay Hpy
                (conj H Hylt) Hcy Wy) as Ay.
  pose proof (axis_alignment _ _ _ _ (cols X_tile) k Hfx Hax Hpx
                (conj H0 Hxlt) Hcx Wx) as Ax.
  cbv zeta in Ay, Ax.
  cbn [getitem px rows cols trim_window ys xs].
  unfold written_rows, written_cols. rewrite y_slice_axis, x_slice_axis.
  rewrite Hpr, Hpc. cbn [getitem rows cols X_window ys xs].
  change (y0 c step) with (lo_axis (y (xtrapad c)) (y step)).
  change (x0 c step) with (lo_axis (x (xtrapad c)) (x step)).
  change (y1 c step)
    with (hi_axis (y (final_shape c)) (y (ary_shape c)) (y (xtrapad c)) (y step)).
  change (x1 c step)
    with (hi_axis (x (final_shape c)) (x (ary_shape c)) (x (xtrapad c)) (x step)).
  now rewrite Ay, Ax.
Qed.

End Stitch.


Lemma mosaic_holds_predictions_witness :
  exists step pred,
    In step (fst (schedule (small_config (mkShape 8 8) (mkShape 8 8)))) /\
    writes (small_config (mkShape 8 8) (mkShape 8 8)) step 11 8 = true /\
    Y_pred (zeros 6 6) (zeros 60 60) (zeros 12 12) (zeros 6 6)
           stand_in_forward (small_config (mkShape 8 8) (mkShape 8 8)) step = Ok pred /\
    px (saved_mosaic (example_loop (small_config (mkShape 8 8) (mkShape 8 8))
                        (fst (schedule (small_config (mkShape 8 8) (mkShape 8 8)))))) 11 8 =
    px pred (11 - 4 * (y0 (small_config (mkShape 8 8) (mkShape 8 8)) step + 1))
            (8 - 4 * (x0 (small_config (mkShape 8 8) (mkShape 8 8)) step + 1)).
Proof.
  set (c := small_config (mkShape 8 8) (mkShape 8 8)).
  assert (Hloop : example_loop c (fst (schedule c))
                  = Saved (saved_mosaic (example_loop c (fst (schedule c)))))
    by (vm_compute; reflexivity).
  apply (mosaic_holds_predictions (zeros 6 6) (zeros 60 60) (zeros 12 12) (zeros 6 6)
           stand_in_forward c (fst (schedule c)) _ 11 8 stand_in_geometry).
  - split; cbn; lia.
  - split; cbn; lia.
  - cbn; lia.
  - cbn; lia.
  - reflexivity.
  - split; cbn; lia.
  - reflexivity.
  - exact Hloop.
  - reflexivity.
Defined.

(** * Failures inside the loop *)

Lemma py_range_head (final s : Z) :
  0 < s -> 0 < final -> exists l, py_range 0 final s = Ok (0 :: l).
Proof.
  intros Hs Hf. unfold py_range, range_len.
  destruct (s =? 0) eqn:E; bool_to_Z; [lia|].
  destruct (0 <? s) eqn:E1; bool_to_Z; [|lia].
  destruct (0 <? final) eqn:E2; bool_to_Z; [|lia].
  assert (H : 0 <= (final - 0 - 1) / s) by (apply Z.div_pos; lia).
  destruct (Z.to_nat ((final - 0 - 1) / s + 1)) as [|n] eqn:En; [lia|].
  cbn. eexists. reflexivity.
Qed.

Lemma schedule_head (c : config) :
  positive (stride c) -> 0 < y (final_shape c) -> 0 < x (final_shape c) ->
  exists steps, schedule c = (mkShape 0 0 :: steps, None).
Proof.
  intros [Hsy Hsx] Hfy Hfx.
  destruct (py_range_head _ _ Hsy Hfy) as (rows_ & Hr).
  destruct (py_range_head _ _ Hsx Hfx) as (cols_ & Hc).
  unfold schedule. rewrite Hr, (schedule_rows_ok c (0 :: cols_)) by assumption.
  cbn. eexists. reflexivity.
Qed.

Lemma trim_empty (xtra n : Z) :
  xtra = 0 -> slice_len (slice_indices (xtra * 4, - xtra * 4) n) = 0.
Proof.
  intros ->. unfold slice_len, slice_indices; cbn [fst snd Z.mul Z.opp]. lia.
Qed.

Lemma first_target_axis (final ary xtra : Z) :
  xtra = 0 -> 12 <= final -> 8 <= ary ->
  0 < slice_len (slice_indices (slice_axis final ary xtra 0) final).
Proof.
  intros -> Hf Ha.
  unfold slice_len, slice_indices, slice_axis, adjust_index, lo_axis, hi_axis;
    cbn [fst snd].
  change (0 / 4 - 0 - 1) with (-1). change (Z.max 0 (-1)) with 0.
  change ((0 + 0 + 1) * 4) with 4. change (4 <? 0) with false. cbv iota.
  rewrite Z.add_0_l.
  assert (H : 3 <= Z.min (final / 4) (ary / 4 + 0 + 1)) by div_lia.
  assert (H' : 4 * Z.min (final / 4) (ary / 4 + 0 + 1) <= final) by div_lia.
  remember (Z.min (final / 4) (ary / 4 + 0 + 1)) as hi eqn:E. clear E.
  destruct ((hi - 0 - 1) * 4 <? 0) eqn:E; bool_to_Z; lia.
Qed.

Lemma tile_loop_saved_any_trace
  (X_tile W1_tile W2_tile W3_tile : ndarray)
  (forward : ndarray -> ndarray -> ndarray -> ndarray -> result ndarray)
  (c : config) (steps : list Shape) :
  forall (Y_hat Y_hat' : ndarray) (t t' : list Shape),
  tile_loop X_tile W1_tile W2_tile W3_tile forward c steps Y_hat t = Saved Y_hat' ->
  tile_loop X_tile W1_tile W2_tile W3_tile forward c steps Y_hat t' = Saved Y_hat'.
Proof.
  induction steps as [|step steps IH]; intros Y_hat Y_hat' t t' H; cbn in *.
  - exact H.
  - destruct (tile _ _ _ _ _ c Y_hat step); [|discriminate]. now apply (IH _ _ _ _ H).
Qed.

Section Failure.

Variables X_tile W1_tile W2_tile W3_tile : ndarray.
Variable forward : ndarray -> ndarray -> ndarray -> ndarray -> result ndarray.

Local Abbreviation Y_pred' := (Y_pred X_tile W1_tile W2_tile W3_tile forward).
Local Abbreviation tile' := (tile X_tile W1_tile W2_tile W3_tile forward).
Local Abbreviation tile_loop' := (tile_loop X_tile W1_tile W2_tile W3_tile forward).
Local Abbreviation run' := (run X_tile W1_tile W2_tile W3_tile forward).

Lemma unpadded_tile_raises (c : config) (Y_hat : ndarray) (step : Shape) :
  shaped c Y_hat ->
  (y (xtrapad c) = 0 /\ 0 < slice_len (written_rows c step)) \/
  (x (xtrapad c) = 0 /\ 0 < slice_len (written_cols c step)) ->
  exists e, tile' c Y_hat step = Raise e /\
    (forall pred, Y_pred' c step = Ok pred -> e = ValueError).
Proof.
  intros [Hr Hc] H. unfold tile, bind.
  destruct (Y_pred' c step) as [pred|e];
    [|exists e; split; [reflexivity|discriminate]].
  exists ValueError. split; [|reflexivity].
  unfold setitem. cbn [Y_hat_window ys xs]. rewrite Hr, Hc.
  fold (written_rows c step). fold (written_cols c step).
  cbn [getitem rows cols trim_window ys xs].
  destruct H as [[Hp Hlen]|[Hp Hlen]].
  - rewrite (trim_empty (y (xtrapad c))) by assumption.
    unfold broadcasts at 1.
    destruct (0 =? slice_len (written_rows c step)) eqn:E; bool_to_Z; [lia|].
    reflexivity.
  - rewrite (trim_empty (x (xtrapad c))) by assumption.
    unfold broadcasts at 2.
    destruct (0 =? slice_len (written_cols c step)) eqn:E; bool_to_Z; [lia|].
    cbn. now rewrite andb_false_r.
Qed.

(** X9: without padding along an axis the interior of every prediction is
    taken with the slice [0 : -0], which is empty.  Over a mosaic of at
    least 12 cells and tiles of at least 8 cells along both axes, with
    positive strides, the run then never reaches the export: it stops at
    the first tile, with a [ValueError] from the write if the generator
    itself returned. *)
Theorem unpadded_run_fails_at_first_tile (c : config) :
  y (xtrapad c) = 0 \/ x (xtrapad c) = 0 ->
  positive (stride c) ->
  12 <= y (final_shape c) -> 12 <= x (final_shape c) ->
  8 <= y (ary_shape c) -> 8 <= x (ary_shape c) ->
  exists e, run' c = Failed e [mkShape 0 0] /\
    (forall pred, Y_pred' c (mkShape 0 0) = Ok pred -> e = ValueError).
Proof.
  intros Hp Hpos Hfy Hfx Hay Hax.
  destruct (schedule_head c Hpos) as (steps & Hs); [lia|lia|].
  assert (Hsh : shaped c (empty_mosaic c)) by (split; reflexivity).
  destruct (unpadded_tile_raises c (empty_mosaic c) (mkShape 0 0) Hsh) as (e & He & Hv).
  { unfold written_rows, written_cols. rewrite y_slice_axis, x_slice_axis.
    destruct Hp as [Hp|Hp]; [left|right]; (split; [assumption|]);
      now apply first_target_axis. }
  exists e. split; [|exact Hv].
  unfold run, np_full. rewrite Hs.
  destruct ((y (final_shape c) <? 0) || (x (final_shape c) <? 0)) eqn:E;
    bool_to_Z; [lia|].
  cbn [tile_loop]. fold (empty_mosaic c). now rewrite He.
Qed.

Lemma tile_loop_failed (c : config) (steps : list Shape) :
  forall (Y_hat : ndarray) (trace : list Shape) (e : exn) (inferred : list Shape),
  shaped c Y_hat ->
  tile_loop' c steps Y_hat trace = Failed e inferred ->
  exists done step rest Y1,
    steps = done ++ step :: rest /\
    inferred = trace ++ done ++ [step] /\
    tile_loop' c done Y_hat [] = Saved Y1 /\
    shaped c Y1 /\
    tile' c Y1 step = Raise e.
Proof.
  induction steps as [|step steps IH]; intros Y_hat trace e inferred Hsh H.
  - discriminate.
  - cbn in H. destruct (tile' c Y_hat step) as [Y1|e'] eqn:E.
    + destruct (tile_frame X_tile W1_tile W2_tile W3_tile forward c Y_hat Y1 step Hsh E)
        as [Hsh1 _].
      destruct (IH Y1 _ e inferred Hsh1 H)
        as (done & s & rest & Y2 & Hsteps & Hinf & Hdone & Hsh2 & Hfail).
      exists (step :: done), s, rest, Y2.
      refine (conj _ (conj _ (conj _ (conj Hsh2 Hfail)))).
      * now rewrite Hsteps.
      * rewrite Hinf, <- !app_assoc. reflexivity.
      * cbn. rewrite E.
        now apply (tile_loop_saved_any_trace _ _ _ _ _ c done Y1 Y2 [] _).
    + injection H as <- <-.
      exists [], step, steps, Y_hat.
      refine (conj eq_refl (conj eq_refl (conj eq_refl (conj Hsh E)))).
Qed.

(** X10: a run over a mosaic of non-negative shape whose schedule was
    built stops at the first tile that raises.  The tiles inferred are
    then a prefix of the schedule that ends with that tile: every tile
    before it was stitched, the exception is the one that tile raised on the
    mosaic stitched so far, and no later tile is touched. *)
Theorem run_stops_at_first_failure
  (c : config) (steps : list Shape) (e : exn) (inferred : list Shape) :
  nonneg (final_shape c) ->
  schedule c = (steps, None) ->
  run' c = Failed e inferred ->
  exists done step rest Y1,
    steps = done ++ step :: rest /\
    inferred = done ++ [step] /\
    tile_loop' c done (empty_mosaic c) [] = Saved Y1 /\
    tile' c Y1 step = Raise e.
Proof.
  intros [Hfy Hfx] Hs Hrun. unfold run, np_full in Hrun. rewrite Hs in Hrun.
  destruct ((y (final_shape c) <? 0) || (x (final_shape c) <? 0)) eqn:E;
    bool_to_Z; [lia|].
  fold (empty_mosaic c) in Hrun.
  assert (Hsh : shaped c (empty_mosaic c)) by (split; reflexivity).
  destruct (tile_loop_failed c steps _ _ _ _ Hsh Hrun)
    as (done & step & rest & Y1 & H1 & H2 & H3 & _ & H4).
  exists done, step, rest, Y1. now repeat split.
Qed.

(** X11: with the tile size equal to a positive stride the order of the
    tiles does not matter: the loop over any rearrangement of the schedule
    that ends without an exception leaves the same value in every cell of
    the mosaic as the loop over the schedule itself. *)
Theorem stitching_order_is_irrelevant
  (c : config) (steps steps' : list Shape) (Y_hat Y_hat' : ndarray) :
  stride c = ary_shape c -> positive (stride c) ->
  nonneg (final_shape c) -> nonneg (xtrapad c) ->
  schedule c = (steps, None) ->
  Permutation steps steps' ->
  tile_loop' c steps (empty_mosaic c) [] = Saved Y_hat ->
  tile_loop' c steps' (empty_mosaic c) [] = Saved Y_hat' ->
  forall r k, px Y_hat r k = px Y_hat' r k.
Proof.
  intros Heq Hpos Hf Hp Hs Hperm Hloop Hloop' r k.
  assert (Hsh : shaped c (empty_mosaic c)) by (split; reflexivity).
  pose proof (write_count_core c steps r k Heq Hpos Hf Hp Hs) as Hcount.
  assert (Hcount' : write_count c steps' r k = write_count c steps r k)
    by (symmetry; now apply filter_length_perm).
  destruct (core c r k).
  - rewrite Hcount in Hcount'.
    destruct (tile_loop_value X_tile W1_tile W2_tile W3_tile forward
                c steps r k _ _ _ Hsh Hloop Hcount) as (s & Hin & Hw & Hv).
    destruct (tile_loop_value X_tile W1_tile W2_tile W3_tile forward
                c steps' r k _ _ _ Hsh Hloop' Hcount') as (s' & Hin' & Hw' & Hv').
    apply (Permutation_in _ (Permutation_sym Hperm)) in Hin'.
    assert (s = s')
      by (apply (filter_single (fun step => writes c step r k) steps); assumption).
    subst s'. congruence.
  - rewrite Hcount in Hcount'.
    destruct (tile_loop_frame X_tile W1_tile W2_tile W3_tile forward
                c steps _ _ _ Hsh Hloop) as [_ Hpx].
    destruct (tile_loop_frame X_tile W1_tile W2_tile W3_tile forward
                c steps' _ _ _ Hsh Hloop') as [_ Hpx'].
    now rewrite Hpx, Hpx'.
Qed.

End Failure.

Lemma unpadded_run_fails_at_first_tile_witness :
  exists e, example_run unpadded_config = Failed e [mkShape 0 0].
Proof.
  unfold example_run. cbv zeta.
  destruct (unpadded_run_fails_at_first_tile (zeros 6 6) (zeros 60 60) (zeros 12 12)
              (zeros 6 6) stand_in_forward unpadded_config) as (e & He & _).
  - left. reflexivity.
  - split; cbn; lia.
  - cbn; lia.
  - cbn; lia.
  - cbn; lia.
  - cbn; lia.
  - now exists e.
Defined.

Lemma run_stops_at_first_failure_witness :
  exists done step rest Y1,
    fst (schedule unpadded_config) = done ++ step :: rest /\
    [mkShape 0 0] = done ++ [step] /\
    example_loop unpadded_config done = Saved Y1 /\
    example_tile unpadded_config Y1 step = Raise ValueError.
Proof.
  unfold example_loop, example_tile. cbv zeta.
  apply run_stops_at_first_failure.
  - split; cbn; lia.
  - reflexivity.
  - reflexivity.
Defined.

Lemma stitching_order_is_irrelevant_witness :
  px (saved_mosaic (example_loop (small_config (mkShape 8 8) (mkShape 8 8))
                      (fst (schedule (small_config (mkShape 8 8) (mkShape 8 8)))))) 9 12
  = px (saved_mosaic (example_loop (small_config (mkShape 8 8) (mkShape 8 8))
                        (rev (fst (schedule (small_config (mkShape 8 8) (mkShape 8 8))))))) 9 12.
Proof.
  set (c := small_config (mkShape 8 8) (mkShape 8 8)).
  assert (H1 : example_loop c (fst (schedule c))
               = Saved (saved_mosaic (example_loop c (fst (schedule c)))))
    by (vm_compute; reflexivity).
  assert (H2 : example_loop c (rev (fst (schedule c)))
               = Saved (saved_mosaic (example_loop c (rev (fst (schedule c))))))
    by (vm_compute; reflexivity).
  apply (stitching_order_is_irrelevant (zeros 6 6) (zeros 60 60) (zeros 12 12) (zeros 6 6)
           stand_in_forward c (fst (schedule c)) (rev (fst (schedule c)))).
  - reflexivity.
  - split; cbn; lia.
  - split; cbn; lia.
  - split; cbn; lia.
  - reflexivity.
  - apply Permutation_rev.
  - exact H1.
  - exact H2.
Defined.

(** * Overlapping tiles *)

Lemma find_snoc {A : Type} (P : A -> bool) (l : list A) (a : A) :
  find P (l ++ [a]) =
  match find P l with
  | Some b => Some b
  | None => if P a then Some a else None
  end.
Proof.
  induction l as [|b l IH]; cbn; [reflexivity|].
  now destruct (P b).
Qed.

Lemma tile_loop_last_writer
  (X_tile W1_tile W2_tile W3_tile : ndarray)
  (forward : ndarray -> ndarray -> ndarray -> ndarray -> result ndarray)
  (c : config) (steps : list Shape) (r k : Z) :
  forall (Y_hat Y_hat' : ndarray) (trace : list Shape),
  shaped c Y_hat ->
  tile_loop X_tile W1_tile W2_tile W3_tile forward c steps Y_hat trace = Saved Y_hat' ->
  px Y_hat' r k =
  match find (fun step => writes c step r k) (rev steps) with
  | Some step => stitched_value X_tile W1_tile W2_tile W3_tile forward c step r k
  | None => px Y_hat r k
  end.
Proof.
  induction steps as [|step steps IH]; intros Y_hat Y_hat' trace Hsh H.
  - injection H as <-. reflexivity.
  - cbn in H.
    destruct (tile X_tile W1_tile W2_tile W3_tile forward c Y_hat step)
      as [Y1|e] eqn:E; [|discriminate].
    destruct (tile_frame X_tile W1_tile W2_tile W3_tile forward c Y_hat Y1 step Hsh E)
      as [Hsh1 Hpx1].
    rewrite (IH Y1 Y_hat' _ Hsh1 H). cbn [rev]. rewrite find_snoc.
    destruct (find (fun s => writes c s r k) (rev steps)); [reflexivity|].
    destruct (writes c step r k) eqn:Ew.
    + now apply (tile_value X_tile W1_tile W2_tile W3_tile forward c Y_hat).
    + now apply Hpx1.
Qed.

(** X12: whatever the stride and the tile size are, each cell of the
    float32 mosaic that the loop over the schedule ends with, before the
    export casts it, holds the value assigned by the last tile, in schedule
    order, whose write takes the cell, and the fill value if no tile takes
    it: where tiles overlap the later tile overwrites the earlier one. *)
Theorem last_writer_wins
  (X_tile W1_tile W2_tile W3_tile : ndarray)
  (forward : ndarray -> ndarray -> ndarray -> ndarray -> result ndarray)
  (c : config) (steps : list Shape) (Y_hat : ndarray) (r k : Z) :
  schedule c = (steps, None) ->
  tile_loop X_tile W1_tile W2_tile W3_tile forward c steps (empty_mosaic c) []
  = Saved Y_hat ->
  px Y_hat r k =
  match find (fun step => writes c step r k) (rev steps) with
  | Some step => stitched_value X_tile W1_tile W2_tile W3_tile forward c step r k
  | None => NaN
  end.
Proof.
  intros _ Hloop.
  assert (Hsh : shaped c (empty_mosaic c)) by (split; reflexivity).
  now rewrite (tile_loop_last_writer _ _ _ _ _ c steps r k _ _ _ Hsh Hloop).
Qed.

Lemma last_writer_wins_witness :
  find (fun step => writes (small_config (mkShape 8 8) (mkShape 4 4)) step 8 8)
       (rev (fst (schedule (small_config (mkShape 8 8) (mkShape 4 4)))))
  = Some (mkShape 8 8) /\
  px (saved_mosaic (example_loop (small_config (mkShape 8 8) (mkShape 4 4))
                      (fst (schedule (small_config (mkShape 8 8) (mkShape 4 4)))))) 8 8
  = stitched_value (zeros 6 6) (zeros 60 60) (zeros 12 12) (zeros 6 6) stand_in_forward
      (small_config (mkShape 8 8) (mkShape 4 4)) (mkShape 8 8) 8 8.
Proof.
  set (c := small_config (mkShape 8 8) (mkShape 4 4)).
  assert (Hloop : example_loop c (fst (schedule c))
                  = Saved (saved_mosaic (example_loop c (fst (schedule c)))))
    by (vm_compute; reflexivity).
  split; [reflexivity|].
  exact (last_writer_wins (zeros 6 6) (zeros 60 60) (zeros 12 12) (zeros 6 6)
           stand_in_forward c (fst (schedule c)) _ 8 8 eq_refl Hloop).
Defined.
